(** * Task manager (Express + Mongoose): model of the handlers and their properties

    The development follows the sources:
    - [models/task.js], [models/user.js]: the two Mongoose schemas;
    - [middleware/authMiddleware.js]: [addUserToLocals], [isAuthenticated], [isGuest];
    - [routes/pages.js]: the aggregation pipelines behind the listing pages and
      the dashboard statistics;
    - [routes/api.js]: the JSON API (create, update, delete, list);
    - [routes/auth.js]: registration and login.

    Collections are lists of documents in natural order.  A handler is a function
    from the request (session, parameters, body) and the collection to a response
    and the new collection. *)

From Stdlib Require Import List String Ascii Bool ZArith Lia Permutation.
From Stdlib Require Import Sorting.Sorted QArith Qround Qpower Lqa.
From Stdlib Require Import PrimFloat FloatOps SpecFloat.
Import ListNotations.

Local Open Scope string_scope.
Local Open Scope Z_scope.

(** ** Data model *)

Module Model.

(** An ObjectId in its hexadecimal string form ([toString()]).  Request
    parameters and body fields that hold an id are taken after the cast to
    ObjectId. *)
Definition ObjectId := string.

(** models/task.js, with the [category] label the routes read and write. *)
Record Task := mkTask {
  t_id : ObjectId;
  titulo : string;
  descricao : option string;
  concluida : bool;
  prioridade : option string;
  category : option string;
  user : ObjectId;
  createdAt : Z;
  updatedAt : Z
}.

(** models/user.js *)
Record User := mkUser {
  u_id : ObjectId;
  nome : string;
  telefone : string;
  email : string;
  password : string;
  role : string;
  u_createdAt : Z
}.

(** The fields that routes/auth.js stores in [req.session] at login. *)
Record Session := mkSession {
  userId : option ObjectId;
  userRole : option string;
  userName : option string
}.

Definition anonymous : Session := mkSession None None None.

End Model.
Import Model.

(** ** Aggregation stages *)

Module Aggregate.

(** A document as it flows through the listing pipelines: the task, the
    looked-up owner ([userDetails], absent before [$lookup] or when the owner
    does not exist) and the computed [priorityOrder]. *)
Record Doc := mkDoc {
  d_task : Task;
  d_userDetails : option User;
  d_priorityOrder : Z
}.

Definition of_task (t : Task) : Doc := mkDoc t None 0.

(** [{ $match: { user: id } }] *)
Definition match_user (id : ObjectId) (docs : list Doc) : list Doc :=
  filter (fun d => String.eqb (user (d_task d)) id) docs.

(** [{ $match: { category: c } }] *)
Definition match_category (c : string) (docs : list Doc) : list Doc :=
  filter (fun d => match category (d_task d) with
                   | Some c' => String.eqb c' c
                   | None => false
                   end) docs.

(** [{ $lookup: { from: 'users', localField: 'user', foreignField: '_id',
    as: 'userDetails' } }] followed by
    [{ $unwind: { path: "$userDetails", preserveNullAndEmptyArrays: b } }]:
    one output document per matching user; a document without a match is kept
    (without [userDetails]) exactly when [b] holds. *)
Definition lookup_unwind (preserve : bool) (users : list User)
                         (docs : list Doc) : list Doc :=
  flat_map (fun d =>
    match filter (fun u => String.eqb (u_id u) (user (d_task d))) users with
    | [] => if preserve then [d] else []
    | us => map (fun u => mkDoc (d_task d) (Some u) (d_priorityOrder d)) us
    end) docs.

(** The [$switch] on ["$prioridade"] with [default: 2]. *)
Definition priority_switch (p : option string) : Z :=
  match p with
  | Some s =>
      if String.eqb s "Alta" then 3
      else if String.eqb s "Média" then 2
      else if String.eqb s "Baixa" then 1
      else 2
  | None => 2
  end.

(** [{ $addFields: { priorityOrder: { $switch: ... } } }] *)
Definition add_priorityOrder (docs : list Doc) : list Doc :=
  map (fun d => mkDoc (d_task d) (d_userDetails d)
                      (priority_switch (prioridade (d_task d)))) docs.

(** Sort keys used by the routes. *)
Inductive SortField := F_concluida | F_priorityOrder | F_createdAt.

(** The value a key reads; booleans order as [false] < [true]. *)
Definition field_value (f : SortField) (d : Doc) : Z :=
  match f with
  | F_concluida => if concluida (d_task d) then 1 else 0
  | F_priorityOrder => d_priorityOrder d
  | F_createdAt => createdAt (d_task d)
  end.

(** A [$sort] specification: keys in order, [1] ascending and [-1] descending. *)
Definition SortSpec := list (SortField * Z).

Fixpoint compare_docs (spec : SortSpec) (a b : Doc) : comparison :=
  match spec with
  | [] => Eq
  | (f, dir) :: rest =>
      match Z.compare (field_value f a) (field_value f b) with
      | Eq => compare_docs rest a b
      | c => if 0 <? dir then c else CompOpp c
      end
  end.

Definition doc_leb (spec : SortSpec) (a b : Doc) : bool :=
  match compare_docs spec a b with
  | Gt => false
  | _ => true
  end.

Fixpoint insert_sorted {A} (leb : A -> A -> bool) (x : A) (l : list A) : list A :=
  match l with
  | [] => [x]
  | y :: l' => if leb x y then x :: l else y :: insert_sorted leb x l'
  end.

Fixpoint sort_with {A} (leb : A -> A -> bool) (l : list A) : list A :=
  match l with
  | [] => []
  | x :: l' => insert_sorted leb x (sort_with leb l')
  end.

(** [{ $sort: spec }] *)
Definition sort_stage (spec : SortSpec) (docs : list Doc) : list Doc :=
  sort_with (doc_leb spec) docs.

(** [{ $sort: { concluida: 1, priorityOrder: -1, createdAt: -1 } }] *)
Definition tarefas_sort : SortSpec :=
  [(F_concluida, 1); (F_priorityOrder, -1); (F_createdAt, -1)].

(** The two ranking stages shared by every listing page. *)
Definition rank (docs : list Doc) : list Doc :=
  sort_stage tarefas_sort (add_priorityOrder docs).

End Aggregate.
Import Aggregate.

(** ** HTTP responses and the session middleware *)

Module Http.

(** What [save()] can throw: the schema validators' messages, or the
    duplicate-key error of a unique index. *)
Inductive SaveError :=
| ValidationError (messages : list string)
| DuplicateKeyError (path : string).

Inductive Payload :=
| P_task (t : Task)
| P_tasks (l : list Task)
| P_message (m : string)
| P_error (e : SaveError).

(** The [error] a form is rendered with: a literal of the route, or the
    [error.message] of a caught exception. *)
Inductive FormError :=
| Literal (m : string)
| Caught (e : SaveError).

(** What a view is rendered with. *)
Inductive PageData :=
| TarefasPage (title description : string) (tasks : list Doc)
| FormPage (title : string) (error : option FormError)
| DashboardPage (title description : string)
                (total concluidas pendentes percentual : Z)
                (latestTasks : list Task).

Inductive Response :=
| Json (status : Z) (success : bool) (p : Payload)
| Redirect (location : string)
| Render (view : string) (data : PageData).

(** JavaScript truthiness of [req.session.userId]: absent and the empty
    string are falsy. *)
Definition truthy (o : option string) : bool :=
  match o with
  | Some s => negb (String.eqb s "")
  | None => false
  end.

(** [addUserToLocals]: [res.locals.userIsLoggedIn = !!(req.session && req.session.userId)]. *)
Definition userIsLoggedIn (s : Session) : bool := truthy (userId s).

(** [isAuthenticated]: pass to the route when logged in, else redirect to the
    login page. *)
Definition isAuthenticated {St : Type} (s : Session)
    (next : St -> Response * St) (st : St) : Response * St :=
  if userIsLoggedIn s then next st else (Redirect "/login", st).

(** [isGuest]: redirect logged-in users to the task page, else pass. *)
Definition isGuest {St : Type} (s : Session)
    (next : St -> Response * St) (st : St) : Response * St :=
  if userIsLoggedIn s then (Redirect "/tarefas", st) else next st.

End Http.
Import Http.

(** ** Listing pages (routes/pages.js) and the API listing *)

Module Pages.

(** The store the pages read: both collections. *)
Record Db := mkDb { tasks : list Task; users : list User }.

(** [new mongoose.Types.ObjectId(req.session.userId)] followed by the [$match]
    on [user]; without a session id the constructor makes a fresh id, which
    matches no stored task. *)
Definition match_session_user (s : Session) (docs : list Doc) : list Doc :=
  match userId s with
  | Some id => match_user id docs
  | None => []
  end.

(** GET /tarefas, the variant that lists the tasks of the logged-in user:
    [$match] on [user], [$addFields], [$sort]. *)
Definition get_tarefas (s : Session) : Db -> Response * Db :=
  isAuthenticated s (fun db =>
    let docs := rank (match_session_user s (map of_task (tasks db))) in
    (Render "tarefas"
       (TarefasPage "Gerenciador de Tarefas"
          "Gerencie suas tarefas de forma simples e eficiente." docs), db)).

(** The pipeline of the four category pages: [$match] on [category],
    [$lookup] of the owner, [$unwind] keeping tasks without one, the two
    [$addFields] and the [$sort]. *)
Definition category_pipeline (c : string) (db : Db) : list Doc :=
  rank (lookup_unwind true (users db)
          (match_category c (map of_task (tasks db)))).

Definition category_page (c title description : string) (s : Session)
  : Db -> Response * Db :=
  isAuthenticated s (fun db =>
    (Render "tarefas" (TarefasPage title description (category_pipeline c db)), db)).

(** GET /tarefas (category variant), /tcc, /trabalho, /carro. *)
Definition get_tarefas_categoria :=
  category_page "Tarefa" "Minhas Tarefas" "Acompanhe todas as suas tarefas.".
Definition get_tcc :=
  category_page "Meu TCC" "Meu TCC" "Acompanhe o progresso do seu TCC.".
Definition get_trabalho :=
  category_page "Trabalho" "Trabalho" "Acompanhe suas pendências do trabalho.".
Definition get_carro :=
  category_page "Carro" "Manutenção do Carro" "Acompanhe seus itens de manutenção.".

(** GET /api/tarefas: [Task.find().sort({ concluida: 1, createdAt: -1 })];
    the route has no middleware. *)
Definition get_api_tarefas (s : Session) (db : Db) : Response * Db :=
  (Json 200 true
     (P_tasks (map d_task
        (sort_stage [(F_concluida, 1); (F_createdAt, -1)]
           (map of_task (tasks db))))), db).

(** The documents a listing response carries. *)
Definition listed (r : Response) : list Task :=
  match r with
  | Render _ (TarefasPage _ _ docs) => map d_task docs
  | Json _ _ (P_tasks l) => l
  | _ => []
  end.

End Pages.
Import Pages.

(** ** Schema setters and validators *)

Module Schema.

Definition is_space (c : ascii) : bool :=
  let n := nat_of_ascii c in
  (Nat.eqb n 32 || (Nat.leb 9 n && Nat.leb n 13))%bool.

Fixpoint trim_start (s : string) : string :=
  match s with
  | EmptyString => EmptyString
  | String c s' => if is_space c then trim_start s' else s
  end.

Fixpoint trim_end (s : string) : string :=
  match s with
  | EmptyString => EmptyString
  | String c s' =>
      match trim_end s' with
      | EmptyString => if is_space c then EmptyString else String c EmptyString
      | r => String c r
      end
  end.

(** [trim: true]; the white space of ASCII. *)
Definition trim (s : string) : string := trim_end (trim_start s).

Definition lower_ascii (c : ascii) : ascii :=
  let n := nat_of_ascii c in
  if (Nat.leb 65 n && Nat.leb n 90)%bool then ascii_of_nat (n + 32) else c.

(** [lowercase: true]; letters outside ASCII are left as they are. *)
Fixpoint toLowerCase (s : string) : string :=
  match s with
  | EmptyString => EmptyString
  | String c s' => String (lower_ascii c) (toLowerCase s')
  end.

(** [maxlength]; lengths count bytes, which for ASCII text are the UTF-16
    units that JavaScript counts. *)
Definition too_long (max : nat) (s : string) : bool :=
  Nat.ltb max (String.length s).

(** The validators of taskSchema, run by [save()]: the messages of the paths
    that fail, in schema order. *)
Definition validate_task (titulo descricao prioridade : option string)
  : list string :=
  (match titulo with
   | None => ["O título da tarefa é obrigatório."]
   | Some t =>
       if String.eqb t "" then ["O título da tarefa é obrigatório."]
       else if too_long 100 t
            then ["O título não pode ter mais de 100 caracteres."]
            else []
   end) ++
  (match descricao with
   | Some d => if too_long 500 d
               then ["A descrição não pode ter mais de 500 caracteres."]
               else []
   | None => []
   end) ++
  (match prioridade with
   | Some p => if (String.eqb p "Baixa" || String.eqb p "Média"
                   || String.eqb p "Alta")%bool
               then []
               else ["`" ++ p
                     ++ "` is not a valid enum value for path `prioridade`."]
   | None => []
   end).

End Schema.
Import Schema.

(** ** The JSON API (routes/api.js) *)

Module Api.

(** The fields of a JSON request body that the task routes can read. *)
Record TaskBody := mkTaskBody {
  b_titulo : option string;
  b_descricao : option string;
  b_prioridade : option string;
  b_category : option string;
  b_concluida : option bool;
  b_user : option ObjectId
}.

Definition findById (id : ObjectId) (l : list Task) : option Task :=
  find (fun t => String.eqb (t_id t) id) l.

(** [Task.deleteOne({ _id: id })]: the first matching document goes. *)
Fixpoint deleteOne (id : ObjectId) (l : list Task) : list Task :=
  match l with
  | [] => []
  | t :: l' => if String.eqb (t_id t) id then l' else t :: deleteOne id l'
  end.

(** Writing back a loaded document: the stored document with its [_id] is
    replaced. *)
Definition replace (t : Task) (l : list Task) : list Task :=
  map (fun t' => if String.eqb (t_id t') (t_id t) then t else t') l.

Definition set_tasks (db : Db) (l : list Task) : Db := mkDb l (users db).

(** [req.session.userRole === 'admin'] *)
Definition userIsAdmin (s : Session) : bool :=
  match userRole s with
  | Some r => String.eqb r "admin"
  | None => false
  end.

(** [task.user.toString() === req.session.userId] *)
Definition userIsOwner (s : Session) (t : Task) : bool :=
  match userId s with
  | Some u => String.eqb (user t) u
  | None => false
  end.

(** POST /api/tarefas: the four fields picked from the body, the owner from
    the session; schema defaults and setters apply in [new Task], validators
    in [save()].  [newid] is the generated [_id], [now] the clock. *)
Definition post_tarefas (s : Session) (body : TaskBody)
    (newid : ObjectId) (now : Z) : Db -> Response * Db :=
  isAuthenticated s (fun db =>
    let titulo := option_map trim (b_titulo body) in
    let descricao := option_map trim (b_descricao body) in
    let prioridade := match b_prioridade body with
                      | Some p => Some p
                      | None => Some "Média"
                      end in
    match userId s with
    | None =>
        (Json 400 false
           (P_error (ValidationError ["Path `user` is required."])), db)
    | Some uid =>
        match titulo, validate_task titulo descricao prioridade with
        | Some ti, [] =>
            let newTask := mkTask newid ti descricao false prioridade
                                  (b_category body) uid now now in
            (Json 201 true (P_task newTask),
             set_tasks db (tasks db ++ [newTask]))
        | _, errs => (Json 400 false (P_error (ValidationError errs)), db)
        end
    end).

(** [Object.assign(task, req.body)]: every field present in the body is
    written over the loaded document. *)
Definition object_assign (t : Task) (b : TaskBody) : Task :=
  mkTask (t_id t)
         (match b_titulo b with Some x => trim x | None => titulo t end)
         (match b_descricao b with Some x => Some (trim x) | None => descricao t end)
         (match b_concluida b with Some x => x | None => concluida t end)
         (match b_prioridade b with Some x => Some x | None => prioridade t end)
         (match b_category b with Some x => Some x | None => category t end)
         (match b_user b with Some x => x | None => user t end)
         (createdAt t)
         (updatedAt t).

Definition touch (t : Task) (now : Z) : Task :=
  mkTask (t_id t) (titulo t) (descricao t) (concluida t) (prioridade t)
         (category t) (user t) (createdAt t) now.

(** PUT /api/tarefas/:id *)
Definition put_tarefas (s : Session) (id : ObjectId) (body : TaskBody)
    (now : Z) : Db -> Response * Db :=
  isAuthenticated s (fun db =>
    match findById id (tasks db) with
    | None => (Json 404 false (P_message "Tarefa não encontrada."), db)
    | Some task =>
        if (negb (userIsAdmin s) && negb (userIsOwner s task))%bool
        then (Json 403 false (P_message "Acesso negado."), db)
        else
          let task' := object_assign task body in
          match validate_task (Some (titulo task')) (descricao task')
                              (prioridade task') with
          | [] =>
              let saved := touch task' now in
              (Json 200 true (P_task saved),
               set_tasks db (replace saved (tasks db)))
          | errs => (Json 400 false (P_error (ValidationError errs)), db)
          end
    end).

(** DELETE /api/tarefas/:id *)
Definition delete_tarefas (s : Session) (id : ObjectId)
  : Db -> Response * Db :=
  isAuthenticated s (fun db =>
    match findById id (tasks db) with
    | None => (Json 404 false (P_message "Tarefa não encontrada."), db)
    | Some task =>
        if (negb (userIsAdmin s) && negb (userIsOwner s task))%bool
        then (Json 403 false (P_message "Acesso negado."), db)
        else (Json 200 true (P_message "Tarefa excluída com sucesso."),
              set_tasks db (deleteOne id (tasks db)))
    end).

(** The [success] flag of a JSON answer. *)
Definition is_success (r : Response) : bool :=
  match r with
  | Json _ true _ => true
  | _ => false
  end.

(** The body [b] with its [user] field set to [u] (or removed). *)
Definition with_user (b : TaskBody) (u : option ObjectId) : TaskBody :=
  mkTaskBody (b_titulo b) (b_descricao b) (b_prioridade b) (b_category b)
             (b_concluida b) u.

End Api.
Import Api.

(** ** Registration and login (routes/auth.js, models/user.js) *)

Module Regex.

(** The fragment of regular expressions that the e-mail pattern needs. *)
Inductive Re :=
| ReNone
| ReEps
| ReChar (c : ascii)
| ReDot
| ReSeq (a b : Re)
| ReAlt (a b : Re)
| RePlus (a : Re).

Fixpoint nullable (r : Re) : bool :=
  match r with
  | ReNone => false
  | ReEps => true
  | ReChar _ => false
  | ReDot => false
  | ReSeq a b => nullable a && nullable b
  | ReAlt a b => nullable a || nullable b
  | RePlus a => nullable a
  end.

(** [.] matches any character but a line terminator. *)
Definition dot_matches (c : ascii) : bool :=
  negb (Nat.eqb (nat_of_ascii c) 10 || Nat.eqb (nat_of_ascii c) 13).

Fixpoint deriv (c : ascii) (r : Re) : Re :=
  match r with
  | ReNone => ReNone
  | ReEps => ReNone
  | ReChar c' => if Ascii.eqb c c' then ReEps else ReNone
  | ReDot => if dot_matches c then ReEps else ReNone
  | ReSeq a b =>
      if nullable a then ReAlt (ReSeq (deriv c a) b) (deriv c b)
      else ReSeq (deriv c a) b
  | ReAlt a b => ReAlt (deriv c a) (deriv c b)
  | RePlus a => ReSeq (deriv c a) (ReAlt ReEps (RePlus a))
  end.

(** Does a prefix of [s] match [r]? *)
Fixpoint match_prefix (r : Re) (s : string) : bool :=
  nullable r ||
  match s with
  | EmptyString => false
  | String c s' => match_prefix (deriv c r) s'
  end.

(** [r.test(s)] for a pattern without anchors: a match may start anywhere. *)
Fixpoint test (r : Re) (s : string) : bool :=
  match_prefix r s ||
  match s with
  | EmptyString => false
  | String _ s' => test r s'
  end.

(** [/.+\@.+\..+/] *)
Definition email_pattern : Re :=
  ReSeq (RePlus ReDot)
    (ReSeq (ReChar "@")
       (ReSeq (RePlus ReDot) (ReSeq (ReChar ".") (RePlus ReDot)))).

End Regex.

Module Auth.

Section Credentials.

(** The hashing primitive of bcryptjs, and the version-dependent choice of
    Mongoose to run the schema setters of a path on query filters. *)
Variable bcrypt_hash : string -> string.
Variable bcrypt_compare : string -> string -> bool.
Variable runSettersOnQuery : bool.

(** The setters of [UserSchema.email]: [lowercase: true, trim: true]. *)
Definition normalize_email (e : string) : string := trim (toLowerCase e).

(** [User.findOne({ email })] *)
Definition findOne_email (e : string) (l : list User) : option User :=
  let q := if runSettersOnQuery then normalize_email e else e in
  find (fun u => String.eqb (email u) q) l.

(** The validators of UserSchema, run on the document built by [new User]. *)
Definition validate_user (u : User) : list string :=
  (if String.eqb (nome u) "" then ["O nome é obrigatório."] else []) ++
  (if String.eqb (telefone u) "" then ["O telefone é obrigatório."] else []) ++
  (if String.eqb (email u) "" then ["O e-mail é obrigatório."]
   else if Regex.test Regex.email_pattern (email u) then []
        else ["Por favor, insira um e-mail válido."]) ++
  (if String.eqb (password u) "" then ["A senha é obrigatória."]
   else if Nat.ltb (String.length (password u)) 6
        then ["A senha deve ter no mínimo 6 caracteres."]
        else []).

(** [newUser.save()]: validation, then the pre-save hook that hashes the
    password, then the insert, which the unique index on [email] rejects when
    the address is already stored. *)
Definition save_user (u : User) (l : list User) : SaveError + list User :=
  match validate_user u with
  | [] =>
      let hashed := mkUser (u_id u) (nome u) (telefone u) (email u)
                           (bcrypt_hash (password u)) (role u) (u_createdAt u) in
      if existsb (fun u' => String.eqb (email u') (email u)) l
      then inl (DuplicateKeyError "email")
      else inr (l ++ [hashed])%list
  | errs => inl (ValidationError errs)
  end.

Record CadastroBody := mkCadastroBody {
  c_nome : string;
  c_telefone : string;
  c_email : string;
  c_password : string
}.

Definition set_users (db : Db) (l : list User) : Db := mkDb (tasks db) l.


(** [new User({ nome, telefone, email, password })]: the setters of the
    schema and the default role apply. *)
Definition new_user (body : CadastroBody) (newid : ObjectId) (now : Z) : User :=
  mkUser newid (trim (c_nome body)) (trim (c_telefone body))
         (normalize_email (c_email body)) (c_password body) "user" now.

(** POST /cadastro; the route is registered without middleware. *)
Definition post_cadastro (s : Session) (body : CadastroBody)
    (newid : ObjectId) (now : Z) (db : Db) : Response * Db :=
  match findOne_email (c_email body) (users db) with
  | Some _ =>
      (Render "cadastro"
         (FormPage "Cadastro de Usuário"
            (Some (Literal "Este e-mail já está cadastrado."))), db)
  | None =>
      let newUser := new_user body newid now in
      match save_user newUser (users db) with
      | inr l => (Redirect "/login?status=success", set_users db l)
      | inl e =>
          (Render "cadastro"
             (FormPage "Cadastro de Usuário" (Some (Caught e))), db)
      end
  end.


(** [user.matchPassword(entered)] *)
Definition matchPassword (u : User) (entered : string) : bool :=
  bcrypt_compare entered (password u).

(** GET /login *)
Definition get_login (s : Session) : Db -> Response * Db :=
  isGuest s (fun db => (Render "login" (FormPage "Login" None), db)).

(** POST /login: the response and the session after the request. *)
Definition post_login (s : Session) (e p : string) (db : Db)
  : Response * Session :=
  match findOne_email e (users db) with
  | None =>
      (Render "login"
         (FormPage "Login" (Some (Literal "E-mail ou senha inválidos."))), s)
  | Some u =>
      if negb (matchPassword u p)
      then (Render "login"
              (FormPage "Login" (Some (Literal "E-mail ou senha inválidos."))), s)
      else (Redirect "/tarefas",
            mkSession (Some (u_id u)) (Some (role u)) (Some (nome u)))
  end.

End Credentials.

End Auth.
Import Auth.

(** ** JavaScript numbers *)

Module JSNumber.

Local Open Scope Q_scope.

(** A Number is an IEEE 754 binary64 value; the finite ones are rationals.
    [fl] is the rounding every arithmetic operation ends with: to the nearest
    value with a 53-bit significand, ties to the even significand.  The
    exponent range is not limited here: the operands of the dashboard lie
    between 2^-53 and 100 for every array a JavaScript engine can hold. *)

(** floor(log2 x) for 0 < x *)
Definition ilog2 (x : Q) : Z :=
  let k := (Z.log2 (Qnum x) - Z.log2 (Zpos (Qden x)))%Z in
  if Qle_bool (2 ^ k) x then k else (k - 1)%Z.

(** The nearest integer, ties to even. *)
Definition round_ties_even (s : Q) : Z :=
  let f := Qfloor s in
  match Qcompare (s - inject_Z f) (1 # 2) with
  | Lt => f
  | Gt => (f + 1)%Z
  | Eq => if Z.even f then f else (f + 1)%Z
  end.

Definition fl_pos (x : Q) : Q :=
  let e := (ilog2 x - 52)%Z in
  inject_Z (round_ties_even (x * 2 ^ (- e))) * 2 ^ e.

Definition fl (x : Q) : Q :=
  match Qnum x with
  | Z0 => 0
  | Zpos _ => fl_pos x
  | Zneg _ => - fl_pos (- x)
  end.

(** [a / b] and [a * b] on Numbers *)
Definition js_div (a b : Q) : Q := fl (a / b).
Definition js_mul (a b : Q) : Q := fl (a * b).

(** [Math.round]: the nearest integer, ties towards +infinity. *)
Definition Math_round (x : Q) : Z := Qfloor (x + (1 # 2)).

End JSNumber.
Import JSNumber.

(** ** The dashboard (routes/pages.js) *)

Module Dashboard.

Record Stats := mkStats {
  total : Z;
  concluidas : Z;
  pendentes : Z;
  percentual : Z
}.

(** [Math.round((concluidas / total) * 100)] *)
Definition ratio_percent (concluidas total : Z) : Z :=
  Math_round (js_mul (js_div (inject_Z concluidas) (inject_Z total))
                     (inject_Z 100)).

(** The statistics block of GET /dashboard. *)
Definition stats (allTasks : list Task) : Stats :=
  let total := Z.of_nat (List.length allTasks) in
  let concluidas :=
    Z.of_nat (List.length (filter (fun t => concluida t) allTasks)) in
  let pendentes := total - concluidas in
  let percentual := if 0 <? total then ratio_percent concluidas total else 0 in
  mkStats total concluidas pendentes percentual.

(** For comparison, the same rounding of the exact quotient
    100 * concluidas / total, free of intermediate roundings. *)
Definition exact_percent (concluidas total : Z) : Z :=
  Math_round (inject_Z 100 * inject_Z concluidas / inject_Z total)%Q.

(** The exact quotient lies halfway between two integers. *)
Definition is_tie (concluidas total : Z) : Prop :=
  (200 * concluidas + total) mod (2 * total) = 0.

(** [Task.find().sort({ createdAt: -1 }).limit(5)] *)
Definition latest (allTasks : list Task) : list Task :=
  firstn 5 (map d_task (sort_stage [(F_createdAt, -1)] (map of_task allTasks))).

(** GET /dashboard *)
Definition get_dashboard (s : Session) : Db -> Response * Db :=
  isAuthenticated s (fun db =>
    let st := stats (tasks db) in
    (Render "dashboard"
       (DashboardPage "Dashboard de Tarefas"
          "Um resumo visual do progresso das suas tarefas."
          (total st) (concluidas st) (pendentes st) (percentual st)
          (latest (tasks db))), db)).

End Dashboard.
Import Dashboard.

(** ** The other routes of routes/api.js: export, report, backup, import *)

Module ApiMore.

(** The double quote, the line feed and the byte order mark. *)
Definition dquote : ascii := ascii_of_nat 34.
Definition newline : string := String (ascii_of_nat 10) EmptyString.
Definition BOM : string :=
  String (ascii_of_nat 239) (String (ascii_of_nat 187)
    (String (ascii_of_nat 191) EmptyString)).

(** The global [replace] of the export: every quote becomes two quotes. *)
Fixpoint double_quotes (s : string) : string :=
  match s with
  | EmptyString => EmptyString
  | String c s' =>
      if Ascii.eqb c dquote
      then String dquote (String dquote (double_quotes s'))
      else String c (double_quotes s')
  end.

(** A text column: empty for an empty text, else the text between quotes
    with its quotes doubled. *)
Definition csv_text (s : string) : string :=
  if String.eqb s "" then ""
  else String dquote (double_quotes s ++ String dquote EmptyString).

(** [x || ''] *)
Definition or_empty (o : option string) : string :=
  match o with
  | Some x => x
  | None => ""
  end.

Section CsvExport.

(** [Date.prototype.toISOString] *)
Variable toISOString : Z -> string.

Definition csv_header : string :=
  BOM ++ "ID;Título;Descrição;Prioridade;Concluída;Categoria;Data de Criação"
      ++ newline.

(** The record that the [forEach] appends for one task. *)
Definition csv_line (t : Task) : string :=
  t_id t ++ ";" ++ csv_text (titulo t) ++ ";"
    ++ csv_text (or_empty (descricao t)) ++ ";"
    ++ or_empty (prioridade t) ++ ";"
    ++ (if concluida t then "Sim" else "Não") ++ ";"
    ++ or_empty (category t) ++ ";"
    ++ toISOString (createdAt t) ++ newline.

(** The body of GET /api/tarefas/exportar. *)
Definition csv_export (tarefas : list Task) : string :=
  fold_left (fun csv t => csv ++ csv_line t) tarefas csv_header.

End CsvExport.

(** [Task.countDocuments(filter)] *)
Definition countDocuments (p : Task -> bool) (l : list Task) : Z :=
  Z.of_nat (List.length (filter p l)).

Definition option_string_eqb (a b : option string) : bool :=
  match a, b with
  | Some x, Some y => String.eqb x y
  | None, None => true
  | _, _ => false
  end.

(** One more document for the group of key [k]. *)
Fixpoint bump (k : option string) (groups : list (option string * Z))
  : list (option string * Z) :=
  match groups with
  | [] => [(k, 1)]
  | (k', n) :: rest =>
      if option_string_eqb k' k then (k', n + 1) :: rest
      else (k', n) :: bump k rest
  end.

(** [{ $group: { _id: "$field", count: { $sum: 1 } } }]; groups in the order
    their key first occurs. *)
Definition group_count (key : Task -> option string) (l : list Task)
  : list (option string * Z) :=
  fold_left (fun groups t => bump (key t) groups) l [].

(** [Task.find().sort({ createdAt: -1 }).limit(n)] *)
Definition most_recent (n : nat) (l : list Task) : list Task :=
  firstn n (map d_task (sort_stage [(F_createdAt, -1)] (map of_task l))).

Record Relatorio := mkRelatorio {
  total_tarefas : Z;
  tarefas_por_prioridade : list (option string * Z);
  tarefas_por_categoria : list (option string * Z);
  status_concluidas : Z;
  status_pendentes : Z;
  ultimas_10_criadas : list Task
}.

(** The data of GET /api/tarefas/relatorio. *)
Definition relatorio (l : list Task) : Relatorio :=
  mkRelatorio
    (countDocuments (fun _ => true) l)
    (group_count prioridade l)
    (group_count category l)
    (countDocuments (fun t => concluida t) l)
    (countDocuments (fun t => negb (concluida t)) l)
    (most_recent 10 l).






(** [Task.create(fields)]: the document made by [new Task] with the setters
    and defaults of the schema, then the validators of [save()]; [user] is
    required like [titulo]. *)
Definition create_task (titulo descricao prioridade category : option string)
    (concluida : bool) (uid : option ObjectId) (newid : ObjectId) (now : Z)
  : SaveError + Task :=
  let titulo := option_map trim titulo in
  let descricao := option_map trim descricao in
  let prioridade := match prioridade with
                    | Some p => Some p
                    | None => Some "Média"
                    end in
  let errs := (validate_task titulo descricao prioridade
               ++ match uid with
                  | Some _ => []
                  | None => ["Path `user` is required."]
                  end)%list in
  match titulo, uid, errs with
  | Some ti, Some u, [] =>
      inr (mkTask newid ti descricao concluida prioridade category u now now)
  | _, _, _ => inl (ValidationError errs)
  end.









End ApiMore.
Import ApiMore.

(** ** The first version of the API (src/routes/api.js), without sessions *)

Module ApiV1.

Record V1Reply := mkV1Reply {
  v1_status : Z;
  v1_success : bool;
  v1_message : option string;
  v1_data : option Task;
  v1_error : option SaveError
}.

(** POST /api/tarefas: [Task.create(req.body)], every field of the body. *)
Definition post_tarefas_v1 (body : TaskBody) (newid : ObjectId) (now : Z)
    (db : Db) : V1Reply * Db :=
  match create_task (b_titulo body) (b_descricao body) (b_prioridade body)
                    (b_category body)
                    (match b_concluida body with
                     | Some b => b | None => false end)
                    (b_user body) newid now with
  | inr t => (mkV1Reply 201 true None (Some t) None,
              set_tasks db (tasks db ++ [t]))
  | inl e => (mkV1Reply 400 false
                (Some "Dados inválidos. Verifique os campos enviados.")
                None (Some e), db)
  end.


End ApiV1.
Import ApiV1.

(** ** The other listings of routes/pages.js *)

Module PagesMore.

(** The query of the home page: [Task.find().sort({ concluida: 1,
    createdAt: -1 }).lean()]. *)
Definition home_tasks (db : Db) : list Task :=
  map d_task (sort_stage [(F_concluida, 1); (F_createdAt, -1)]
                (map of_task (tasks db))).

(** GET /tarefas, the team variant: no [$match], and an [$unwind] that drops
    the tasks whose owner is not found. *)
Definition team_pipeline (db : Db) : list Doc :=
  rank (lookup_unwind false (users db) (map of_task (tasks db))).

Definition get_tarefas_equipe (s : Session) : Db -> Response * Db :=
  isAuthenticated s (fun db =>
    (Render "tarefas"
       (TarefasPage "Todas as Tarefas" "Acompanhe todas as tarefas da equipe."
          (team_pipeline db)), db)).

End PagesMore.
Import PagesMore.

(** ** Predicates on stores *)

Module Invariants.

(** No two stored tasks share an [_id]. *)
Definition unique_ids (l : list Task) : Prop := NoDup (map t_id l).

(** The stored task passes the validators of its schema. *)
Definition valid_task (t : Task) : Prop :=
  validate_task (Some (titulo t)) (descricao t) (prioridade t) = [].




(** Reading a record as a spreadsheet does: a semicolon separates two
    columns unless it stands between quotes.  [separators inside s] counts
    the separating semicolons of [s], read from inside or outside quotes, and
    [ends_inside inside s] tells where the reading ends. *)
Fixpoint separators (inside : bool) (s : string) : nat :=
  match s with
  | EmptyString => 0
  | String c s' =>
      if Ascii.eqb c dquote then separators (negb inside) s'
      else if (negb inside && Ascii.eqb c ";")%bool
           then S (separators inside s')
           else separators inside s'
  end.

Fixpoint ends_inside (inside : bool) (s : string) : bool :=
  match s with
  | EmptyString => inside
  | String c s' =>
      if Ascii.eqb c dquote then ends_inside (negb inside) s'
      else ends_inside inside s'
  end.

(** A text without quote and without semicolon. *)
Fixpoint plain (s : string) : bool :=
  match s with
  | EmptyString => true
  | String c s' =>
      (negb (Ascii.eqb c dquote) && negb (Ascii.eqb c ";") && plain s')%bool
  end.

(** The count that a grouping gives to a key, 0 when the key has no group,
    and the sum of all its counts. *)
Definition group_lookup (k : option string)
    (groups : list (option string * Z)) : Z :=
  match find (fun g => option_string_eqb (fst g) k) groups with
  | Some g => snd g
  | None => 0
  end.

Definition sum_counts (groups : list (option string * Z)) : Z :=
  fold_right (fun g acc => snd g + acc) 0 groups.

End Invariants.
Import Invariants.

(** ** Sample data *)

Module Sample.

Definition id_A : ObjectId := "64b7f0a1c2d3e4f5a6b7c8d1".
Definition id_B : ObjectId := "64b7f0a1c2d3e4f5a6b7c8d2".
Definition id_admin : ObjectId := "64b7f0a1c2d3e4f5a6b7c8d0".
Definition id_task : ObjectId := "64b7f0a1c2d3e4f5a6b7c9e1".
Definition id_fresh : ObjectId := "64b7f0a1c2d3e4f5a6b7c9e2".

(** A non-admin user [A], the user [B] and an administrator. *)
Definition session_A : Session := mkSession (Some id_A) (Some "user") (Some "Ana").
Definition session_B : Session := mkSession (Some id_B) (Some "user") (Some "Bia").
Definition session_admin : Session :=
  mkSession (Some id_admin) (Some "admin") (Some "Admin").

(** A task of [B] in category "Tarefa". *)
Definition task_of_B : Task :=
  mkTask id_task "Revisar capítulo 2" None false
         (Some "Alta") (Some "Tarefa") id_B 1000 1000.

Definition db_B : Db := mkDb [task_of_B] [].

Definition empty_body : TaskBody := mkTaskBody None None None None None None.

(** A body that names another owner. *)
Definition body_user_A : TaskBody :=
  mkTaskBody None None None None None (Some id_A).

Definition body_milk_for_B : TaskBody :=
  mkTaskBody (Some "Buy milk") None (Some "Alta") None None (Some id_B).

(** A stand-in for the hash: the theorems hold for every choice. *)
Definition sample_hash (p : string) : string := "$2a$10$" ++ p.
Definition sample_compare (p h : string) : bool := String.eqb (sample_hash p) h.

Definition cadastro_ana : CadastroBody :=
  mkCadastroBody "Ana" "21 99999-0000" "ana@exemplo.com" "segredo1".

Definition empty_db : Db := mkDb [] [].

Definition hex_digit (n : nat) : string :=
  String.substring (n mod 16) 1 "0123456789abcdef".

(** The [n]-th of a series of tasks of [A]. *)
Definition nth_task (done : bool) (n : nat) : Task :=
  mkTask ("64b7f0a1c2d3e4f5a6b7c9" ++ hex_digit (n / 16) ++ hex_digit n)
         "Tarefa" None done (Some "Média") (Some "Tarefa") id_A
         (Z.of_nat n) (Z.of_nat n).

(** Forty tasks, the first twenty-three of them completed. *)
Definition forty_tasks : list Task :=
  map (nth_task true) (seq 0 23) ++ map (nth_task false) (seq 23 17).

(** Two tasks of [A]: an open one of low priority and a completed one of
    high priority. *)
Definition task_low : Task :=
  mkTask "64b7f0a1c2d3e4f5a6b7c9a1" "Regar as plantas" None false
         (Some "Baixa") None id_A 10 10.
Definition task_done : Task :=
  mkTask "64b7f0a1c2d3e4f5a6b7c9a2" "Entregar relatório" None true
         (Some "Alta") None id_A 20 25.
Definition db_A : Db := mkDb [task_done; task_low; task_of_B] [].
Definition body_milk : TaskBody :=
  mkTaskBody (Some " Buy milk ") None (Some "Alta") None None None.

(** The store after Ana has registered. *)
Definition db_ana : Db :=
  snd (post_cadastro sample_hash true anonymous cadastro_ana id_A 100 empty_db).

End Sample.
Import Sample.

(** ** More sample data *)

Module Sample2.

(** A body that only marks the task as completed. *)
Definition body_done : TaskBody :=
  mkTaskBody None None None None (Some true) None.

(** The store with the accounts of [A] and [B] and one task of each. *)
Definition user_A : User :=
  mkUser id_A "Ana" "21 99999-0000" "ana@exemplo.com" "$2a$10$x" "user" 1.
Definition user_B : User :=
  mkUser id_B "Bia" "21 98888-0000" "bia@exemplo.com" "$2a$10$y" "user" 2.
Definition db_AB : Db := mkDb [task_low; task_of_B] [user_A; user_B].

(** The same tasks when the account of [B] is gone. *)
Definition db_A_only : Db := mkDb [task_low; task_of_B] [user_A].




(** A clock in text for the export: the milliseconds in decimal. *)
Definition sample_date (z : Z) : string :=
  "2024-01-01T00:00:00." ++ hex_digit (Z.to_nat z) ++ "00Z".

(** A task whose title holds a quote and semicolons. *)
Definition task_tricky : Task :=
  mkTask "64b7f0a1c2d3e4f5a6b7c9a3"
         (String dquote "a;b" ++ String dquote ";c")
         (Some "x;y") false (Some "Alta") (Some "Carro") id_A 3 3.

End Sample2.
Import Sample2.

(** * Properties *)

(** ** Sorting *)

Section InsertionSort.

Context {A : Type} (leb : A -> A -> bool).

Let le (a b : A) : Prop := leb a b = true.

Hypothesis leb_total : forall a b, leb a b = false -> leb b a = true.
Hypothesis leb_trans : forall a b c, le a b -> le b c -> le a c.

Lemma insert_sorted_perm (x : A) (l : list A) :
  Permutation (insert_sorted leb x l) (x :: l).
Proof.
  induction l as [|y l IH]; simpl.
  - apply Permutation_refl.
  - destruct (leb x y).
    + apply Permutation_refl.
    + apply perm_trans with (y :: x :: l).
      * now apply perm_skip.
      * apply perm_swap.
Qed.

Lemma sort_with_perm (l : list A) : Permutation (sort_with leb l) l.
Proof.
  induction l as [|x l IH]; simpl.
  - apply perm_nil.
  - apply perm_trans with (x :: sort_with leb l).
    + apply insert_sorted_perm.
    + now apply perm_skip.
Qed.

Lemma insert_sorted_Forall (P : A -> Prop) (x : A) (l : list A) :
  P x -> Forall P l -> Forall P (insert_sorted leb x l).
Proof.
  intros Hx Hl.
  apply (Permutation_Forall (Permutation_sym (insert_sorted_perm x l))).
  now constructor.
Qed.

Lemma insert_sorted_sorted (x : A) (l : list A) :
  StronglySorted le l -> StronglySorted le (insert_sorted leb x l).
Proof.
  induction 1 as [|y l Hs IH Hy]; simpl.
  - constructor; [constructor | constructor].
  - destruct (leb x y) eqn:E.
    + constructor.
      * now constructor.
      * constructor; [exact E|].
        eapply Forall_impl; [|exact Hy].
        intros z Hz. now apply leb_trans with y.
    + constructor; [exact IH|].
      apply insert_sorted_Forall; [|exact Hy].
      now apply leb_total.
Qed.

Lemma sort_with_sorted (l : list A) : StronglySorted le (sort_with leb l).
Proof.
  induction l as [|x l IH]; simpl.
  - constructor.
  - now apply insert_sorted_sorted.
Qed.

End InsertionSort.

Lemma StronglySorted_nth_error {A} (R : A -> A -> Prop) (l : list A) :
  StronglySorted R l ->
  forall i j a b, (i < j)%nat ->
    nth_error l i = Some a -> nth_error l j = Some b -> R a b.
Proof.
  induction 1 as [|x l Hs IH Hx]; intros i j a b Hij Ha Hb.
  - destruct i; discriminate.
  - destruct j as [|j]; [lia|].
    simpl in Hb. destruct i as [|i]; simpl in Ha.
    + injection Ha as <-.
      rewrite Forall_forall in Hx. apply Hx.
      eapply nth_error_In; eassumption.
    + apply (IH i j); [lia | assumption | assumption].
Qed.

Lemma compare_docs_antisym (spec : SortSpec) (a b : Doc) :
  compare_docs spec b a = CompOpp (compare_docs spec a b).
Proof.
  induction spec as [|[f dir] rest IH]; simpl; [reflexivity|].
  rewrite (Z.compare_antisym (field_value f a) (field_value f b)).
  destruct (field_value f a ?= field_value f b); simpl;
    [exact IH | | ]; destruct (0 <? dir); reflexivity.
Qed.

Lemma doc_leb_total (spec : SortSpec) (a b : Doc) :
  doc_leb spec a b = false -> doc_leb spec b a = true.
Proof.
  unfold doc_leb. rewrite (compare_docs_antisym spec a b).
  destruct (compare_docs spec a b); simpl; congruence.
Qed.

Lemma compare_docs_trans (spec : SortSpec) (a b c : Doc) :
  compare_docs spec a b <> Gt -> compare_docs spec b c <> Gt ->
  compare_docs spec a c <> Gt.
Proof.
  induction spec as [|[f dir] rest IH]; simpl; [congruence|].
  destruct (Z.compare_spec (field_value f a) (field_value f b)) as [E1|L1|G1];
  destruct (Z.compare_spec (field_value f b) (field_value f c)) as [E2|L2|G2];
  destruct (Z.compare_spec (field_value f a) (field_value f c)) as [E3|L3|G3];
    try lia; try exact IH;
    destruct (0 <? dir); simpl; congruence.
Qed.

Lemma doc_leb_trans (spec : SortSpec) (a b c : Doc) :
  doc_leb spec a b = true -> doc_leb spec b c = true -> doc_leb spec a c = true.
Proof.
  unfold doc_leb. intros Hab Hbc.
  pose proof (compare_docs_trans spec a b c) as H.
  destruct (compare_docs spec a b); try discriminate;
  destruct (compare_docs spec b c); try discriminate;
  destruct (compare_docs spec a c); try reflexivity;
    exfalso; apply H; congruence.
Qed.

Lemma sort_stage_sorted (spec : SortSpec) (docs : list Doc) :
  StronglySorted (fun a b => doc_leb spec a b = true) (sort_stage spec docs).
Proof.
  apply sort_with_sorted.
  - apply doc_leb_total.
  - apply doc_leb_trans.
Qed.

Lemma sort_stage_perm (spec : SortSpec) (docs : list Doc) :
  Permutation (sort_stage spec docs) docs.
Proof. apply sort_with_perm. Qed.

(** What the three keys of the listing order say of two documents. *)
Lemma tarefas_sort_leb (a b : Doc) :
  doc_leb tarefas_sort a b = true ->
  (concluida (d_task a) = true -> concluida (d_task b) = true) /\
  (concluida (d_task a) = concluida (d_task b) ->
     d_priorityOrder b <= d_priorityOrder a) /\
  (concluida (d_task a) = concluida (d_task b) ->
     d_priorityOrder a = d_priorityOrder b ->
     createdAt (d_task b) <= createdAt (d_task a)).
Proof.
  unfold doc_leb, tarefas_sort; simpl.
  destruct (concluida (d_task a)), (concluida (d_task b)); simpl;
    try discriminate;
    destruct (Z.compare_spec (d_priorityOrder a) (d_priorityOrder b));
    simpl; try discriminate;
    destruct (Z.compare_spec (createdAt (d_task a)) (createdAt (d_task b)));
    simpl; try discriminate; intros _;
    repeat split; intros; try congruence; try lia.
Qed.

Lemma add_priorityOrder_task (docs : list Doc) :
  map d_task (add_priorityOrder docs) = map d_task docs.
Proof.
  unfold add_priorityOrder. rewrite map_map. reflexivity.
Qed.

Lemma rank_perm (docs : list Doc) :
  Permutation (map d_task (rank docs)) (map d_task docs).
Proof.
  unfold rank. rewrite <- (add_priorityOrder_task docs).
  apply Permutation_map, sort_stage_perm.
Qed.

Lemma rank_priorityOrder (docs : list Doc) (d : Doc) :
  In d (rank docs) ->
  d_priorityOrder d = priority_switch (prioridade (d_task d)).
Proof.
  unfold rank. intros H.
  apply (Permutation_in _ (sort_stage_perm _ _)) in H.
  unfold add_priorityOrder in H. apply in_map_iff in H.
  destruct H as [d0 [<- _]]. reflexivity.
Qed.

Lemma priority_switch_other (p : string) :
  p <> "Alta" -> p <> "Média" -> p <> "Baixa" -> priority_switch (Some p) = 2.
Proof.
  intros H1 H2 H3. simpl.
  apply String.eqb_neq in H1, H2, H3. now rewrite H1, H2, H3.
Qed.

(** C1. The ranked listing is the empty sequence for no task, holds exactly
    the tasks it was given, weighs Alta 3, Média 2, Baixa 1 and every other or
    missing priority 2, and any document listed before another is not
    completed unless the other is too, has at least its weight when both have
    the same completion status, and is at least as recent when status and
    weight are both equal. *)
Theorem rank_three_key_order (docs : list Doc) :
  rank [] = [] /\
  Permutation (map d_task (rank docs)) (map d_task docs) /\
  (forall d, In d (rank docs) ->
     d_priorityOrder d = priority_switch (prioridade (d_task d))) /\
  priority_switch (Some "Alta") = 3 /\
  priority_switch (Some "Média") = 2 /\
  priority_switch (Some "Baixa") = 1 /\
  priority_switch None = 2 /\
  (forall p, p <> "Alta" -> p <> "Média" -> p <> "Baixa" ->
     priority_switch (Some p) = 2) /\
  (forall i j a b, (i < j)%nat ->
     nth_error (rank docs) i = Some a -> nth_error (rank docs) j = Some b ->
     (concluida (d_task a) = true -> concluida (d_task b) = true) /\
     (concluida (d_task a) = concluida (d_task b) ->
        d_priorityOrder b <= d_priorityOrder a) /\
     (concluida (d_task a) = concluida (d_task b) ->
        d_priorityOrder a = d_priorityOrder b ->
        createdAt (d_task b) <= createdAt (d_task a))).
Proof.
  split; [reflexivity|].
  split; [apply rank_perm|].
  split; [apply rank_priorityOrder|].
  repeat (split; [reflexivity|]).
  split; [apply priority_switch_other|].
  intros i j a b Hij Ha Hb.
  apply tarefas_sort_leb.
  exact (StronglySorted_nth_error _ _ (sort_stage_sorted _ _) i j a b Hij Ha Hb).
Qed.

(** ** Listings and ownership *)

Lemma in_map_of_task (t : Task) (l : list Task) (d : Doc) :
  In d (map of_task l) -> d_task d = t -> In t l.
Proof.
  intros H E. apply in_map_iff in H. destruct H as [t' [<- Ht']].
  simpl in E. now subst.
Qed.

Lemma listed_rank (docs : list Doc) (t : Task) :
  In t (map d_task (rank docs)) <-> In t (map d_task docs).
Proof.
  split; apply Permutation_in;
    [apply rank_perm | apply Permutation_sym, rank_perm].
Qed.

Lemma match_user_tasks (id : ObjectId) (l : list Task) (t : Task) :
  In t (map d_task (match_user id (map of_task l))) <-> In t l /\ user t = id.
Proof.
  unfold match_user. rewrite in_map_iff. split.
  - intros [d [<- Hd]]. apply filter_In in Hd. destruct Hd as [Hd E].
    apply String.eqb_eq in E. split; [|exact E].
    now apply (in_map_of_task _ _ d).
  - intros [Ht E]. exists (of_task t). split; [reflexivity|].
    apply filter_In. split; [now apply in_map|].
    simpl. now apply String.eqb_eq.
Qed.

Lemma match_category_tasks (c : string) (l : list Task) (t : Task) :
  In t (map d_task (match_category c (map of_task l)))
  <-> In t l /\ category t = Some c.
Proof.
  unfold match_category. rewrite in_map_iff. split.
  - intros [d [<- Hd]]. apply filter_In in Hd. destruct Hd as [Hd E].
    split; [now apply (in_map_of_task _ _ d)|].
    destruct (category (d_task d)) as [c'|]; [|discriminate].
    apply String.eqb_eq in E. now subst.
  - intros [Ht E]. exists (of_task t). split; [reflexivity|].
    apply filter_In. split; [now apply in_map|].
    simpl. rewrite E. apply String.eqb_refl.
Qed.

(** With [preserveNullAndEmptyArrays: true] the join neither drops nor adds
    a task. *)
Lemma lookup_unwind_tasks (us : list User) (docs : list Doc) (t : Task) :
  In t (map d_task (lookup_unwind true us docs)) <-> In t (map d_task docs).
Proof.
  unfold lookup_unwind. rewrite !in_map_iff. split.
  - intros [d [<- Hd]]. apply in_flat_map in Hd.
    destruct Hd as [d0 [Hd0 Hd]]. exists d0. split; [|exact Hd0].
    destruct (filter _ us) as [|u us'].
    + destruct Hd as [<-|[]]. reflexivity.
    + apply in_map_iff in Hd. destruct Hd as [u' [<- _]]. reflexivity.
  - intros [d [<- Hd]].
    destruct (filter (fun u => String.eqb (u_id u) (user (d_task d))) us)
      as [|u us'] eqn:E.
    + exists d. split; [reflexivity|].
      apply in_flat_map. exists d. split; [exact Hd|]. rewrite E. now left.
    + exists (mkDoc (d_task d) (Some u) (d_priorityOrder d)).
      split; [reflexivity|].
      apply in_flat_map. exists d. split; [exact Hd|]. rewrite E.
      simpl. now left.
Qed.

Lemma category_pipeline_tasks (c : string) (db : Db) (t : Task) :
  In t (map d_task (category_pipeline c db))
  <-> In t (tasks db) /\ category t = Some c.
Proof.
  unfold category_pipeline.
  rewrite listed_rank, lookup_unwind_tasks. apply match_category_tasks.
Qed.

Lemma get_api_tarefas_tasks (s : Session) (db : Db) (t : Task) :
  In t (listed (fst (get_api_tarefas s db))) <-> In t (tasks db).
Proof.
  simpl.
  assert (P : Permutation
            (map d_task (sort_stage [(F_concluida, 1); (F_createdAt, -1)]
                           (map of_task (tasks db))))
            (tasks db)).
  { apply perm_trans with (map d_task (map of_task (tasks db))).
    - apply Permutation_map, sort_stage_perm.
    - rewrite map_map. simpl. rewrite map_id. apply Permutation_refl. }
  split; apply Permutation_in; [exact P | now apply Permutation_sym].
Qed.

(** C3, as stated, fails: the category listing requested by the non-admin
    user [A] carries a task whose owner is [B]; so does GET /api/tarefas. *)
Lemma category_listing_not_owner_scoped :
  userIsLoggedIn session_A = true /\
  userRole session_A <> Some "admin" /\
  In task_of_B (listed (fst (get_tarefas_categoria session_A db_B))) /\
  In task_of_B (listed (fst (get_api_tarefas session_A db_B))) /\
  userId session_A <> Some (user task_of_B).
Proof.
  repeat split; try discriminate; simpl; now left.
Qed.

(** C3, amended.  For a logged-in caller of any role, the user listing
    GET /tarefas returns exactly the stored tasks whose owner is the caller;
    each category page returns exactly the stored tasks of its category, and
    GET /api/tarefas every stored task, whoever owns them. *)
Theorem listing_scopes (s : Session) (db : Db) :
  userIsLoggedIn s = true ->
  (forall t, In t (listed (fst (get_tarefas s db)))
             <-> In t (tasks db) /\ userId s = Some (user t)) /\
  (forall c title description t,
      In t (listed (fst (category_page c title description s db)))
      <-> In t (tasks db) /\ category t = Some c) /\
  (forall t, In t (listed (fst (get_api_tarefas s db))) <-> In t (tasks db)).
Proof.
  intros Hs. split; [|split].
  - intros t. unfold get_tarefas, isAuthenticated. rewrite Hs. simpl.
    rewrite listed_rank. unfold match_session_user.
    destruct (userId s) as [id|] eqn:E.
    + rewrite match_user_tasks. split.
      * intros [H1 H2]. split; [exact H1 | now subst].
      * intros [H1 H2]. split; [exact H1 | congruence].
    + unfold userIsLoggedIn in Hs. rewrite E in Hs. discriminate.
  - intros c title description t.
    unfold category_page, isAuthenticated. rewrite Hs. simpl.
    apply category_pipeline_tasks.
  - intros t. apply get_api_tarefas_tasks.
Qed.

Lemma listing_scopes_witness :
  userIsLoggedIn session_A = true /\
  (In task_of_B (listed (fst (get_tarefas session_A db_B))) -> False).
Proof.
  split; [reflexivity|].
  intros H.
  apply (proj1 (listing_scopes session_A db_B eq_refl)) in H.
  destruct H as [_ H]. discriminate H.
Defined.

(** ** Mutations: permission, not-found, ownership *)

Lemma findById_None (id : ObjectId) (l : list Task) :
  ~ In id (map t_id l) -> findById id l = None.
Proof.
  unfold findById. induction l as [|t l IH]; simpl; [reflexivity|].
  intros H. destruct (String.eqb (t_id t) id) eqn:E.
  - apply String.eqb_eq in E. exfalso. apply H. now left.
  - apply IH. intros H'. apply H. now right.
Qed.

(** C2. On an existing task, PUT and DELETE by a logged-in identity that is
    neither admin nor the owner answer 403 and leave the store as it was; so
    a request succeeds only for an admin or the owner. *)
Theorem mutation_needs_admin_or_owner
    (s : Session) (id : ObjectId) (body : TaskBody) (now : Z)
    (db : Db) (task : Task) :
  userIsLoggedIn s = true ->
  findById id (tasks db) = Some task ->
  (~ (userRole s = Some "admin" \/ userId s = Some (user task)) ->
     put_tarefas s id body now db
       = (Json 403 false (P_message "Acesso negado."), db) /\
     delete_tarefas s id db
       = (Json 403 false (P_message "Acesso negado."), db)) /\
  (is_success (fst (put_tarefas s id body now db)) = true ->
     userRole s = Some "admin" \/ userId s = Some (user task)) /\
  (is_success (fst (delete_tarefas s id db)) = true ->
     userRole s = Some "admin" \/ userId s = Some (user task)).
Proof.
  intros Hs Hf.
  assert (D : (userRole s = Some "admin" \/ userId s = Some (user task)) \/
              (userIsAdmin s = false /\ userIsOwner s task = false)).
  { unfold userIsAdmin, userIsOwner.
    destruct (userRole s) as [r|].
    - destruct (String.eqb_spec r "admin") as [->|_]; [left; now left|].
      destruct (userId s) as [u|]; [|right; now split].
      destruct (String.eqb_spec (user task) u) as [->|_];
        [left; now right | right; now split].
    - destruct (userId s) as [u|]; [|right; now split].
      destruct (String.eqb_spec (user task) u) as [->|_];
        [left; now right | right; now split]. }
  unfold put_tarefas, delete_tarefas, isAuthenticated.
  rewrite Hs, Hf.
  destruct D as [D|[Ha Ho]].
  - split; [intros N; contradiction | split; intros _; exact D].
  - rewrite Ha, Ho. simpl.
    split; [intros _; now split | split; discriminate].
Qed.

Lemma mutation_needs_admin_or_owner_witness :
  put_tarefas session_A id_task empty_body 2000 db_B
    = (Json 403 false (P_message "Acesso negado."), db_B) /\
  delete_tarefas session_A id_task db_B
    = (Json 403 false (P_message "Acesso negado."), db_B).
Proof.
  refine (proj1 (mutation_needs_admin_or_owner session_A id_task empty_body
                   2000 db_B task_of_B eq_refl eq_refl) _).
  intros [H|H]; discriminate H.
Defined.

(** The owner and an admin do get through. *)
Example owner_and_admin_may_delete :
  delete_tarefas session_B id_task db_B
    = (Json 200 true (P_message "Tarefa excluída com sucesso."), empty_db) /\
  delete_tarefas session_admin id_task db_B
    = (Json 200 true (P_message "Tarefa excluída com sucesso."), empty_db).
Proof. split; reflexivity. Qed.



(** C5. A create request by a logged-in identity either stores one new task,
    answered with 201, whose owner is the [userId] of the session, or is
    refused with 400 and stores nothing; the [user] field of the body has no
    influence on either the response or the store. *)
Theorem created_task_owned_by_session
    (s : Session) (body : TaskBody) (newid : ObjectId) (now : Z) (db : Db) :
  userIsLoggedIn s = true ->
  ((exists t, post_tarefas s body newid now db
               = (Json 201 true (P_task t), set_tasks db (tasks db ++ [t])) /\
              userId s = Some (user t) /\ t_id t = newid)
   \/ (exists e, post_tarefas s body newid now db
               = (Json 400 false (P_error e), db))) /\
  (forall u, post_tarefas s (with_user body u) newid now db
             = post_tarefas s body newid now db).
Proof.
  intros Hs. split.
  - unfold post_tarefas, isAuthenticated. rewrite Hs.
    destruct (userId s) as [uid|] eqn:E.
    + destruct (option_map trim (b_titulo body)) as [ti|];
        [destruct (validate_task _ _ _) eqn:V|].
      * left. eexists. split; [reflexivity|]. now split.
      * right. eexists. reflexivity.
      * right. eexists. reflexivity.
    + right. eexists. reflexivity.
  - intros u. reflexivity.
Qed.

Lemma created_task_owned_by_session_witness :
  exists t, post_tarefas session_A body_milk_for_B id_fresh 3000 db_B
            = (Json 201 true (P_task t), set_tasks db_B (tasks db_B ++ [t])) /\
            user t = id_A.
Proof.
  destruct (proj1 (created_task_owned_by_session session_A body_milk_for_B
                     id_fresh 3000 db_B eq_refl)) as [[t [H1 [H2 _]]]|[e H]].
  - exists t. split; [exact H1|]. simpl in H2. now injection H2.
  - discriminate H.
Defined.

(** C4 fails on the code.  The owner [B] sends PUT with [{ user: A }]:
    [Object.assign] copies the field, [save()] accepts the document, and the
    stored task now belongs to [A]. *)
Theorem put_overwrites_owner :
  exists saved,
    put_tarefas session_B id_task body_user_A 2000 db_B
      = (Json 200 true (P_task saved), mkDb [saved] []) /\
    user task_of_B = id_B /\
    user saved = id_A /\
    id_A <> id_B.
Proof.
  eexists. split; [reflexivity|].
  repeat split. discriminate.
Qed.

(** Without a [user] field in the body the owner is kept. *)
Lemma object_assign_keeps_owner (t : Task) (b : TaskBody) :
  b_user b = None -> user (object_assign t b) = user t.
Proof. intros H. simpl. now rewrite H. Qed.

(** ** Credentials *)



(** The right secret does log Ana in. *)
Example login_succeeds :
  post_login sample_compare true anonymous "ana@exemplo.com" "segredo1" db_ana
    = (Redirect "/tarefas", mkSession (Some id_A) (Some "user") (Some "Ana")).
Proof. reflexivity. Qed.








(** ** Rounding of JavaScript numbers *)

Section Rounding.
Local Open Scope Q_scope.

Lemma pow2_pos (e : Z) : 0 < 2 ^ e.
Proof. apply Qpower_0_lt. reflexivity. Qed.

Lemma pow2_add (a b : Z) : 2 ^ (a + b) == 2 ^ a * 2 ^ b.
Proof. apply Qpower_plus. discriminate. Qed.

Lemma pow2_le (a b : Z) : (a <= b)%Z -> 2 ^ a <= 2 ^ b.
Proof. intros H. apply Qpower_le_compat_l; [exact H | discriminate]. Qed.

Lemma pow2_inject (a : Z) : (0 <= a)%Z -> inject_Z (2 ^ a) == 2 ^ a.
Proof. intros H. now rewrite Zpower_Qpower. Qed.

Lemma ilog2_spec (x : Q) :
  0 < x -> 2 ^ ilog2 x <= x /\ x < 2 ^ (ilog2 x + 1).
Proof.
  intros Hx.
  destruct x as [n d]. unfold ilog2. simpl Qnum. simpl Qden.
  assert (Hn : (0 < n)%Z).
  { unfold Qlt in Hx. simpl in Hx. lia. }
  set (a := Z.log2 n). set (b := Z.log2 (Zpos d)).
  destruct (Z.log2_spec n Hn) as [Ha1 Ha2].
  destruct (Z.log2_spec (Zpos d) eq_refl) as [Hb1 Hb2].
  fold a in Ha1, Ha2. fold b in Hb1, Hb2.
  assert (Ha0 : (0 <= a)%Z) by apply Z.log2_nonneg.
  assert (Hb0 : (0 <= b)%Z) by apply Z.log2_nonneg.
  rewrite Zle_Qle, pow2_inject in Ha1 by assumption.
  rewrite Zlt_Qlt, pow2_inject in Ha2 by lia.
  rewrite Zle_Qle, pow2_inject in Hb1 by assumption.
  rewrite Zlt_Qlt, pow2_inject in Hb2 by lia.
  assert (Hxd : (n # d) * inject_Z (Zpos d) == inject_Z n).
  { rewrite (Qmake_Qdiv n d). field. discriminate. }
  assert (Hd : 0 < inject_Z (Zpos d)) by reflexivity.
  pose proof (pow2_pos (a - b)) as Pk.
  pose proof (pow2_pos (a - b - 1)) as Pk1.
  pose proof (pow2_pos (a - b + 1)) as Pk2.
  pose proof (pow2_pos b) as Pb.
  pose proof (pow2_pos (b + 1)) as Pb1.
  assert (E1 : 2 ^ (a - b - 1) * 2 ^ (b + 1) == 2 ^ a).
  { rewrite <- pow2_add. now replace (a - b - 1 + (b + 1))%Z with a by ring. }
  assert (E2 : 2 ^ (a - b + 1) * 2 ^ b == 2 ^ (a + 1)).
  { rewrite <- pow2_add. now replace (a - b + 1 + b)%Z with (a + 1)%Z by ring. }
  assert (Lo : 2 ^ (a - b - 1) <= n # d).
  { apply Qlt_le_weak. apply (Qmult_lt_r _ _ (2 ^ (b + 1)) Pb1).
    rewrite E1. apply Qle_lt_trans with (inject_Z n); [exact Ha1|].
    rewrite <- Hxd. apply Qmult_lt_l; assumption. }
  assert (Hi : n # d < 2 ^ (a - b + 1)).
  { apply (Qmult_lt_r _ _ (2 ^ b) Pb).
    rewrite E2. apply Qle_lt_trans with (inject_Z n); [|exact Ha2].
    rewrite <- Hxd. apply Qmult_le_l; assumption. }
  destruct (Qle_bool (2 ^ (a - b)) (n # d)) eqn:T.
  - apply Qle_bool_iff in T. split; assumption.
  - replace (a - b - 1 + 1)%Z with (a - b)%Z by ring.
    split; [exact Lo|].
    apply Qnot_le_lt. intros C. apply Qle_bool_iff in C. congruence.
Qed.


Ltac compare_to_order :=
  repeat match goal with
  | H : Qcompare _ _ = Eq |- _ => apply (proj2 (Qeq_alt _ _)) in H
  | H : Qcompare _ _ = Lt |- _ => apply (proj2 (Qlt_alt _ _)) in H
  | H : Qcompare _ _ = Gt |- _ => apply (proj2 (Qgt_alt _ _)) in H
  end.

Lemma round_ties_even_floor (s : Q) :
  (Qfloor s <= round_ties_even s <= Qfloor s + 1)%Z.
Proof.
  unfold round_ties_even.
  destruct (Qcompare _ _); [destruct (Z.even _)| |]; lia.
Qed.

Lemma round_ties_even_near (s : Q) :
  s - (1 # 2) <= inject_Z (round_ties_even s) <= s + (1 # 2).
Proof.
  pose proof (Qfloor_le s) as H1. pose proof (Qlt_floor s) as H2.
  rewrite inject_Z_plus in H2. change (inject_Z 1) with 1 in H2.
  unfold round_ties_even.
  destruct (Qcompare (s - inject_Z (Qfloor s)) (1 # 2)) eqn:C.
  - apply Qeq_alt in C.
    destruct (Z.even _);
      [|rewrite inject_Z_plus; change (inject_Z 1) with 1]; split; lra.
  - apply Qlt_alt in C. split; lra.
  - apply Qgt_alt in C. rewrite inject_Z_plus. change (inject_Z 1) with 1.
    split; lra.
Qed.

Lemma round_ties_even_Z (n : Z) : round_ties_even (inject_Z n) = n.
Proof.
  unfold round_ties_even. rewrite Qfloor_Z.
  assert (C : Qcompare (inject_Z n - inject_Z n) (1 # 2) = Lt).
  { apply (proj1 (Qlt_alt _ _)). setoid_replace (inject_Z n - inject_Z n) with 0 by ring. reflexivity. }
  now rewrite C.
Qed.

Lemma round_ties_even_mono (s s' : Q) :
  s <= s' -> (round_ties_even s <= round_ties_even s')%Z.
Proof.
  intros H.
  pose proof (Qfloor_resp_le _ _ H) as Hf.
  destruct (Z.eq_dec (Qfloor s) (Qfloor s')) as [E|N].
  - unfold round_ties_even. rewrite <- E.
    destruct (Qcompare (s - inject_Z (Qfloor s)) (1 # 2)) eqn:C;
    destruct (Qcompare (s' - inject_Z (Qfloor s)) (1 # 2)) eqn:C';
      try (destruct (Z.even (Qfloor s))); try lia;
      compare_to_order; exfalso; lra.
  - pose proof (round_ties_even_floor s). pose proof (round_ties_even_floor s').
    lia.
Qed.

Lemma round_ties_even_ge (n : Z) (s : Q) :
  inject_Z n <= s -> (n <= round_ties_even s)%Z.
Proof.
  intros H. rewrite <- (round_ties_even_Z n). now apply round_ties_even_mono.
Qed.

Lemma round_ties_even_le (n : Z) (s : Q) :
  s <= inject_Z n -> (round_ties_even s <= n)%Z.
Proof.
  intros H. rewrite <- (round_ties_even_Z n). now apply round_ties_even_mono.
Qed.

(** The scaled significand lies in [2^52, 2^53). *)
Lemma scaled_range (x : Q) :
  0 < x ->
  inject_Z (2 ^ 52) <= x * 2 ^ (- (ilog2 x - 52)) /\
  x * 2 ^ (- (ilog2 x - 52)) < inject_Z (2 ^ 53).
Proof.
  intros Hx. destruct (ilog2_spec x Hx) as [H1 H2].
  set (L := ilog2 x) in *.
  pose proof (pow2_pos (- (L - 52))) as P.
  assert (E1 : 2 ^ L * 2 ^ (- (L - 52)) == inject_Z (2 ^ 52)).
  { rewrite <- pow2_add. now replace (L + - (L - 52))%Z with 52%Z by ring. }
  assert (E2 : 2 ^ (L + 1) * 2 ^ (- (L - 52)) == inject_Z (2 ^ 53)).
  { rewrite <- pow2_add. now replace (L + 1 + - (L - 52))%Z with 53%Z by ring. }
  split.
  - rewrite <- E1. apply Qmult_le_r; assumption.
  - rewrite <- E2. apply Qmult_lt_r; assumption.
Qed.

Lemma fl_pos_significand (x : Q) :
  0 < x ->
  (2 ^ 52 <= round_ties_even (x * 2 ^ (- (ilog2 x - 52))) <= 2 ^ 53)%Z.
Proof.
  intros Hx. destruct (scaled_range x Hx) as [H1 H2]. split.
  - now apply round_ties_even_ge.
  - apply round_ties_even_le. now apply Qlt_le_weak.
Qed.


Lemma fl_pos_unscale (x : Q) :
  x * 2 ^ (- (ilog2 x - 52)) * 2 ^ (ilog2 x - 52) == x.
Proof.
  rewrite <- Qmult_assoc, <- pow2_add.
  replace (- (ilog2 x - 52) + (ilog2 x - 52))%Z with 0%Z by ring.
  change (2 ^ 0) with 1. ring.
Qed.

(** One rounding moves a positive value by at most 2^-53 of itself. *)
Lemma fl_pos_error (x : Q) :
  0 < x ->
  x - x * (1 # 2 ^ 53) <= fl_pos x <= x + x * (1 # 2 ^ 53).
Proof.
  intros Hx. unfold fl_pos.
  destruct (ilog2_spec x Hx) as [HL _].
  pose proof (fl_pos_unscale x) as U.
  pose proof (round_ties_even_near (x * 2 ^ (- (ilog2 x - 52)))) as [N1 N2].
  pose proof (pow2_pos (ilog2 x - 52)) as P.
  assert (E : 2 ^ (ilog2 x - 52) == 2 ^ ilog2 x * (1 # 2 ^ 52)).
  { replace (ilog2 x - 52)%Z with (ilog2 x + -52)%Z by ring.
    rewrite pow2_add. reflexivity. }
  set (s := x * 2 ^ (- (ilog2 x - 52))) in *.
  set (m := inject_Z (round_ties_even s)) in *.
  set (p := 2 ^ (ilog2 x - 52)) in *.
  set (l := 2 ^ ilog2 x) in *.
  assert (B1 : (s - (1 # 2)) * p <= m * p) by (apply Qmult_le_r; assumption).
  assert (B2 : m * p <= (s + (1 # 2)) * p) by (apply Qmult_le_r; assumption).
  change (1 # 2 ^ 52) with (1 # 4503599627370496) in E.
  change (1 # 2 ^ 53) with (1 # 9007199254740992).
  split; lra.
Qed.

Lemma ilog2_mono (x y : Q) : 0 < x -> x <= y -> (ilog2 x <= ilog2 y)%Z.
Proof.
  intros Hx Hxy.
  assert (Hy : 0 < y) by lra.
  destruct (ilog2_spec x Hx) as [X1 _].
  destruct (ilog2_spec y Hy) as [_ Y2].
  destruct (Z_le_gt_dec (ilog2 x) (ilog2 y)) as [L|G]; [exact L|].
  exfalso.
  assert (M : 2 ^ (ilog2 y + 1) <= 2 ^ ilog2 x) by (apply pow2_le; lia).
  lra.
Qed.

Lemma fl_pos_mono (x y : Q) : 0 < x -> x <= y -> fl_pos x <= fl_pos y.
Proof.
  intros Hx Hxy.
  assert (Hy : 0 < y) by lra.
  pose proof (ilog2_mono x y Hx Hxy) as HL.
  destruct (Z.eq_dec (ilog2 x) (ilog2 y)) as [E|N].
  - unfold fl_pos. rewrite <- E.
    pose proof (pow2_pos (ilog2 x - 52)) as P.
    pose proof (pow2_pos (- (ilog2 x - 52))) as P'.
    apply Qmult_le_r; [exact P|].
    rewrite <- Zle_Qle. apply round_ties_even_mono.
    apply Qmult_le_r; assumption.
  - pose proof (fl_pos_significand x Hx) as [_ Mx].
    pose proof (fl_pos_significand y Hy) as [My _].
    unfold fl_pos.
    set (mx := round_ties_even (x * 2 ^ (- (ilog2 x - 52)))) in *.
    set (my := round_ties_even (y * 2 ^ (- (ilog2 y - 52)))) in *.
    pose proof (pow2_pos (ilog2 x - 52)) as Px.
    pose proof (pow2_pos (ilog2 y - 52)) as Py.
    rewrite Zle_Qle in Mx, My.
    assert (Ex : inject_Z (2 ^ 53) * 2 ^ (ilog2 x - 52) == 2 ^ (ilog2 x + 1)).
    { replace (ilog2 x + 1)%Z with (53 + (ilog2 x - 52))%Z by ring.
      rewrite pow2_add. reflexivity. }
    assert (Ey : inject_Z (2 ^ 52) * 2 ^ (ilog2 y - 52) == 2 ^ ilog2 y).
    { replace (ilog2 y) with (52 + (ilog2 y - 52))%Z at 2 by ring.
      rewrite pow2_add. reflexivity. }
    assert (M : 2 ^ (ilog2 x + 1) <= 2 ^ ilog2 y) by (apply pow2_le; lia).
    apply Qle_trans with (inject_Z (2 ^ 53) * 2 ^ (ilog2 x - 52)).
    + apply Qmult_le_r; assumption.
    + apply Qle_trans with (inject_Z (2 ^ 52) * 2 ^ (ilog2 y - 52)).
      * rewrite Ex, Ey. exact M.
      * apply Qmult_le_r; assumption.
Qed.

Lemma fl_pos_positive (x : Q) : 0 < x -> 0 < fl_pos x.
Proof.
  intros Hx. pose proof (fl_pos_error x Hx) as [H _].
  change (1 # 2 ^ 53) with (1 # 9007199254740992) in H. lra.
Qed.

Lemma fl_of_positive (x : Q) : 0 < x -> fl x = fl_pos x.
Proof.
  intros Hx. unfold fl. destruct x as [[|p|p] d]; simpl; try reflexivity;
    unfold Qlt in Hx; simpl in Hx; lia.
Qed.

Lemma nonneg_cases (x : Q) : 0 <= x -> (Qnum x = 0%Z /\ x == 0) \/ 0 < x.
Proof.
  intros H. destruct x as [[|p|p] d].
  - left. split; reflexivity.
  - right. reflexivity.
  - exfalso. unfold Qle in H. simpl in H. lia.
Qed.

Lemma fl_zero (x : Q) : Qnum x = 0%Z -> fl x = 0.
Proof. intros H. unfold fl. now rewrite H. Qed.

Lemma fl_nonneg (x : Q) : 0 <= x -> 0 <= fl x.
Proof.
  intros H. destruct (nonneg_cases x H) as [[Z _]|P].
  - rewrite (fl_zero x Z). lra.
  - rewrite (fl_of_positive x P). apply Qlt_le_weak. now apply fl_pos_positive.
Qed.

(** Rounding is monotone on the non-negative numbers. *)
Lemma fl_mono (x y : Q) : 0 <= x -> x <= y -> fl x <= fl y.
Proof.
  intros Hx Hxy. destruct (nonneg_cases x Hx) as [[Z _]|P].
  - rewrite (fl_zero x Z). apply fl_nonneg. lra.
  - assert (Py : 0 < y) by lra.
    rewrite (fl_of_positive x P), (fl_of_positive y Py).
    now apply fl_pos_mono.
Qed.

Lemma fl_error (x : Q) :
  0 <= x -> x - x * (1 # 2 ^ 53) <= fl x <= x + x * (1 # 2 ^ 53).
Proof.
  intros Hx. destruct (nonneg_cases x Hx) as [[Z E]|P].
  - rewrite (fl_zero x Z). rewrite E. split; lra.
  - rewrite (fl_of_positive x P). now apply fl_pos_error.
Qed.

Lemma fl_1 : fl 1 == 1.
Proof. reflexivity. Qed.

Lemma fl_100 : fl (inject_Z 100) == inject_Z 100.
Proof. reflexivity. Qed.


Lemma ratio_range (c t : Z) :
  (0 <= c <= t)%Z -> (0 < t)%Z ->
  0 <= inject_Z c / inject_Z t <= 1.
Proof.
  intros [H0 H1] Ht.
  rewrite Zle_Qle in H0, H1. rewrite Zlt_Qlt in Ht.
  change (inject_Z 0) with 0 in *.
  split.
  - apply Qle_shift_div_l; [exact Ht|]. lra.
  - apply Qle_shift_div_r; [exact Ht|]. lra.
Qed.

Lemma product_range (c t : Z) :
  (0 <= c <= t)%Z -> (0 < t)%Z ->
  0 <= js_mul (js_div (inject_Z c) (inject_Z t)) (inject_Z 100) <= inject_Z 100.
Proof.
  intros Hc Ht. destruct (ratio_range c t Hc Ht) as [R0 R1].
  unfold js_mul, js_div.
  pose proof (fl_nonneg _ R0) as F0.
  pose proof (fl_mono _ _ R0 R1) as F1. rewrite fl_1 in F1.
  set (x1 := fl (inject_Z c / inject_Z t)) in *.
  change (inject_Z 100) with 100 in *.
  assert (Y0 : 0 <= x1 * 100) by lra.
  assert (Y1 : x1 * 100 <= 100) by lra.
  split.
  - now apply fl_nonneg.
  - apply Qle_trans with (fl 100).
    + now apply fl_mono.
    + apply Qle_lteq. right. exact fl_100.
Qed.

Lemma ratio_percent_bounds (c t : Z) :
  (0 <= c <= t)%Z -> (0 < t)%Z -> (0 <= ratio_percent c t <= 100)%Z.
Proof.
  intros Hc Ht. destruct (product_range c t Hc Ht) as [P0 P1].
  unfold ratio_percent, Math_round.
  set (y := js_mul _ _) in *. change (inject_Z 100) with 100 in P1.
  split.
  - change 0%Z with (Qfloor (0 + (1 # 2))). apply Qfloor_resp_le. lra.
  - change 100%Z with (Qfloor (100 + (1 # 2))). apply Qfloor_resp_le. lra.
Qed.

(** The double product is within 2^-44 of the exact 100 c / t. *)
Lemma product_error (c t : Z) :
  (0 <= c <= t)%Z -> (0 < t)%Z ->
  100 * (inject_Z c / inject_Z t) - (1 # 2 ^ 44)
    <= js_mul (js_div (inject_Z c) (inject_Z t)) (inject_Z 100)
    <= 100 * (inject_Z c / inject_Z t) + (1 # 2 ^ 44).
Proof.
  intros Hc Ht. destruct (ratio_range c t Hc Ht) as [R0 R1].
  unfold js_mul, js_div.
  pose proof (fl_nonneg _ R0) as F0.
  pose proof (fl_error _ R0) as [E0 E1].
  set (x := inject_Z c / inject_Z t) in *.
  set (x1 := fl x) in *.
  change (inject_Z 100) with 100.
  assert (Y0 : 0 <= x1 * 100) by lra.
  pose proof (fl_error _ Y0) as [G0 G1].
  set (y1 := fl (x1 * 100)) in *.
  change (1 # 2 ^ 53) with (1 # 9007199254740992) in *.
  change (1 # 2 ^ 44) with (1 # 17592186044416).
  split; lra.
Qed.

Lemma Qfloor_ge (k : Z) (w : Q) : inject_Z k <= w -> (k <= Qfloor w)%Z.
Proof.
  intros H. rewrite <- (Qfloor_Z k). now apply Qfloor_resp_le.
Qed.

Lemma Qfloor_lt (k : Z) (w : Q) : w < inject_Z k -> (Qfloor w < k)%Z.
Proof.
  intros H. rewrite Zlt_Qlt.
  apply Qle_lt_trans with w; [apply Qfloor_le | exact H].
Qed.

(** Against the exact rounding (200 c + t) / (2 t) of 100 c / t to the
    nearest integer, ties up. *)
Lemma ratio_percent_exact (c t : Z) :
  (0 <= c <= t)%Z -> (0 < t < 2 ^ 43)%Z ->
  ((200 * c + t) / (2 * t) - 1 <= ratio_percent c t <= (200 * c + t) / (2 * t))%Z
  /\ (((200 * c + t) mod (2 * t) <> 0)%Z ->
      ratio_percent c t = ((200 * c + t) / (2 * t))%Z).
Proof.
  intros Hc [Ht Ht'].
  destruct (product_error c t Hc Ht) as [E0 E1].
  unfold ratio_percent, Math_round.
  set (y := js_mul _ _) in *.
  set (N := (200 * c + t)%Z). set (D := (2 * t)%Z).
  assert (HD : (0 < D)%Z) by (unfold D; lia).
  pose proof (Z.div_mod N D ltac:(lia)) as DM.
  pose proof (Z.mod_pos_bound N D HD) as [M0 M1].
  set (K := (N / D)%Z) in *. set (r := (N mod D)%Z) in *.
  (* the exact value, shifted by one half *)
  assert (W : 100 * (inject_Z c / inject_Z t) + (1 # 2)
              == inject_Z K + inject_Z r / inject_Z D).
  { assert (Tq : ~ inject_Z t == 0).
    { intros C. rewrite Zlt_Qlt in Ht. rewrite C in Ht. discriminate Ht. }
    assert (Dq : inject_Z D == 2 * inject_Z t).
    { unfold D. rewrite inject_Z_mult. reflexivity. }
    assert (Nq : inject_Z N == inject_Z D * inject_Z K + inject_Z r).
    { rewrite DM. rewrite inject_Z_plus, inject_Z_mult. reflexivity. }
    assert (Nq' : inject_Z N == 200 * inject_Z c + inject_Z t).
    { unfold N. rewrite inject_Z_plus, inject_Z_mult. reflexivity. }
    assert (X : inject_Z r == 200 * inject_Z c + inject_Z t
                              - 2 * inject_Z t * inject_Z K).
    { rewrite <- Nq', Nq, Dq. ring. }
    rewrite X, Dq. field. exact Tq. }
  set (q := 1 / inject_Z D).
  assert (Dpos : 0 < inject_Z D) by (rewrite Zlt_Qlt in HD; exact HD).
  assert (Q1 : q * inject_Z D == 1).
  { unfold q. field. intros C. rewrite C in Dpos. discriminate Dpos. }
  assert (Qpos : 0 < q).
  { unfold q. apply Qlt_shift_div_l; [exact Dpos|]. lra. }
  assert (Qbig : (1 # 2 ^ 44) < q).
  { assert (DL : inject_Z D < inject_Z (2 ^ 44)).
    { rewrite <- Zlt_Qlt. unfold D. lia. }
    assert (q * inject_Z D < q * inject_Z (2 ^ 44))
      by (apply Qmult_lt_l; assumption).
    change (inject_Z (2 ^ 44)) with 17592186044416 in *.
    change (1 # 2 ^ 44) with (1 # 17592186044416). lra. }
  assert (RQ : inject_Z r / inject_Z D == inject_Z r * q).
  { unfold q. field. intros C. rewrite C in Dpos. discriminate Dpos. }
  assert (R1 : inject_Z r * q <= 1 - q).
  { assert (A : inject_Z r <= inject_Z (D + -1))
      by (rewrite <- Zle_Qle; lia).
    rewrite inject_Z_plus in A. change (inject_Z (-1)) with (- (1)) in A.
    assert (inject_Z r * q <= (inject_Z D + - (1)) * q)
      by (apply Qmult_le_r; assumption).
    lra. }
  assert (R0 : 0 <= inject_Z r * q).
  { apply Qmult_le_0_compat; [|lra].
    change 0 with (inject_Z 0). rewrite <- Zle_Qle. exact M0. }
  rewrite RQ in W.
  change (1 # 2 ^ 44) with (1 # 17592186044416) in *.
  assert (Up : (Qfloor (y + (1 # 2)) < K + 1)%Z).
  { apply Qfloor_lt. rewrite inject_Z_plus. change (inject_Z 1) with 1. lra. }
  assert (Lo : (K - 1 <= Qfloor (y + (1 # 2)))%Z).
  { apply Qfloor_ge. unfold Z.sub. rewrite inject_Z_plus.
    change (inject_Z (- (1))) with (- (1)). lra. }
  split; [lia|].
  intros Hr.
  assert (R2 : q <= inject_Z r * q).
  { assert (1 <= inject_Z r).
    { change 1 with (inject_Z 1). rewrite <- Zle_Qle. lia. }
    assert (1 * q <= inject_Z r * q) by (apply Qmult_le_r; assumption).
    lra. }
  assert (Lo' : (K <= Qfloor (y + (1 # 2)))%Z).
  { apply Qfloor_ge. lra. }
  lia.
Qed.

End Rounding.

(** ** The dashboard statistics *)

Lemma exact_percent_div (c t : Z) :
  0 < t -> exact_percent c t = (200 * c + t) / (2 * t).
Proof.
  intros Ht. unfold exact_percent, Math_round.
  rewrite (Zdiv_Qdiv (200 * c + t) (2 * t)).
  apply Qfloor_comp.
  rewrite inject_Z_plus, !inject_Z_mult.
  assert (Tq : ~ (inject_Z t == 0)%Q).
  { intros C. rewrite Zlt_Qlt in Ht. rewrite C in Ht. discriminate Ht. }
  change (inject_Z 200) with 200%Q. change (inject_Z 2) with 2%Q.
  change (inject_Z 100) with 100%Q.
  field. exact Tq.
Qed.

Lemma count_concluidas (l : list Task) :
  List.length (filter (fun t => concluida t) l)
  = count_occ bool_dec (map concluida l) true.
Proof.
  induction l as [|t l IH]; simpl; [reflexivity|].
  destruct (concluida t); simpl; now rewrite IH.
Qed.

Lemma count_split (l : list Task) :
  (count_occ bool_dec (map concluida l) true
   + count_occ bool_dec (map concluida l) false = List.length l)%nat.
Proof.
  induction l as [|t l IH]; simpl; [reflexivity|].
  destruct (concluida t); simpl; lia.
Qed.

(** Forty tasks, twenty-three completed: the quotient 23/40 is not a double,
    its nearest double times 100 rounds below 57.5, and the dashboard shows
    57 where the exact quotient rounds to 58. *)
Lemma percentual_23_of_40 :
  total (stats forty_tasks) = 40 /\
  concluidas (stats forty_tasks) = 23 /\
  (js_mul (js_div 23 40) 100 == 8092405580431359 # 2 ^ 47)%Q /\
  percentual (stats forty_tasks) = 57 /\
  exact_percent 23 40 = 58 /\
  percentual (stats forty_tasks)
    <> exact_percent (concluidas (stats forty_tasks)) (total (stats forty_tasks)).
Proof.
  repeat split; try (vm_compute; congruence).
Qed.

(** The same three operations on the machine's binary64 numbers give the
    significand and exponent that [fl] computes. *)
Example machine_double_23_of_40 :
  Prim2SF (PrimFloat.mul (PrimFloat.div 23 40) 100)
    = S754_finite false 8092405580431359 (-47) /\
  Prim2SF (PrimFloat.div 23 40) = S754_finite false 5179139571476070 (-53) /\
  (js_div 23 40 == 5179139571476070 # 2 ^ 53)%Q.
Proof. repeat split; vm_compute; reflexivity. Qed.

(** C10, amended.  [total] is the number of tasks, [concluidas] the number of
    completed ones, [pendentes] their difference, which is the number of
    tasks not completed.  [percentual] is 0 for the empty store and else
    [Math.round] of the double-precision product (concluidas / total) * 100:
    an integer between 0 and 100 that equals the rounding of the exact
    quotient 100 * concluidas / total unless that quotient lies exactly
    halfway between two integers, where it may also be the integer below. *)
Theorem dashboard_statistics (allTasks : list Task) :
  let st := stats allTasks in
  total st = Z.of_nat (List.length allTasks) /\
  concluidas st = Z.of_nat (count_occ bool_dec (map concluida allTasks) true) /\
  pendentes st = total st - concluidas st /\
  pendentes st = Z.of_nat (count_occ bool_dec (map concluida allTasks) false) /\
  (total st = 0 -> percentual st = 0) /\
  (0 < total st ->
     percentual st
     = Math_round (js_mul (js_div (inject_Z (concluidas st))
                                  (inject_Z (total st))) (inject_Z 100))) /\
  0 <= percentual st <= 100 /\
  (0 < total st < 2 ^ 32 ->
     exact_percent (concluidas st) (total st) - 1 <= percentual st
       <= exact_percent (concluidas st) (total st) /\
     (~ is_tie (concluidas st) (total st) ->
        percentual st = exact_percent (concluidas st) (total st))).
Proof.
  pose proof (count_concluidas allTasks) as Hc.
  pose proof (count_split allTasks) as Hs.
  cbv zeta. unfold stats. cbn [total concluidas pendentes percentual].
  rewrite Hc.
  set (t := Z.of_nat (List.length allTasks)).
  set (c := Z.of_nat (count_occ bool_dec (map concluida allTasks) true)).
  assert (Hct : 0 <= c <= t) by (unfold c, t; lia).
  split; [reflexivity|]. split; [reflexivity|]. split; [reflexivity|].
  split; [unfold c, t; lia|].
  split; [intros ->; reflexivity|].
  split.
  { intros Ht. apply Z.ltb_lt in Ht. now rewrite Ht. }
  split.
  { destruct (Z.ltb_spec 0 t) as [Ht|Ht]; [|lia].
    now apply ratio_percent_bounds. }
  intros [Ht Ht']. rewrite (proj2 (Z.ltb_lt 0 t) Ht).
  rewrite (exact_percent_div c t Ht).
  apply ratio_percent_exact; [exact Hct|].
  split; [exact Ht|]. apply Z.lt_trans with (2 ^ 32); [exact Ht'|reflexivity].
Qed.

Lemma dashboard_statistics_witness :
  0 <= percentual (stats forty_tasks) <= 100 /\
  exact_percent 23 40 - 1 <= percentual (stats forty_tasks).
Proof.
  pose proof (dashboard_statistics forty_tasks) as H. cbv zeta in H.
  destruct H as [_ [_ [_ [_ [_ [_ [B E]]]]]]].
  split; [exact B|].
  assert (R : 0 < total (stats forty_tasks) < 2 ^ 32) by (split; reflexivity).
  exact (proj1 (proj1 (E R))).
Defined.

(** ** Scenarios *)

(** [A] creates "Buy milk" with high priority; the listing for [A] shows it
    before the older open task of low priority, both before the completed
    one, and shows no task of [B]. *)
Example scenario_buy_milk :
  let db' := snd (post_tarefas session_A body_milk id_fresh 30 db_A) in
  map titulo (listed (fst (get_tarefas session_A db')))
    = ["Buy milk"; "Regar as plantas"; "Entregar relatório"].
Proof. reflexivity. Qed.

(** A task without a title is refused and nothing is stored. *)
Example scenario_title_required :
  post_tarefas session_A empty_body id_fresh 30 db_A
    = (Json 400 false
         (P_error (ValidationError ["O título da tarefa é obrigatório."])),
       db_A).
Proof. reflexivity. Qed.

(** Without a session the API redirects to the login page. *)
Example scenario_anonymous_delete :
  delete_tarefas anonymous id_task db_B = (Redirect "/login", db_B).
Proof. reflexivity. Qed.

(** A password of five characters is refused by the schema. *)
Example scenario_short_password :
  post_cadastro sample_hash true anonymous
    (mkCadastroBody "Bia" "21 97777-0000" "bia@exemplo.com" "12345")
    id_B 300 db_ana
  = (Render "cadastro"
       (FormPage "Cadastro de Usuário"
          (Some (Caught (ValidationError
                           ["A senha deve ter no mínimo 6 caracteres."])))),
     db_ana).
Proof. reflexivity. Qed.

(** The e-mail pattern at work. *)
Example scenario_email_pattern :
  Regex.test Regex.email_pattern "ana@exemplo.com" = true /\
  Regex.test Regex.email_pattern "ana@exemplo" = false /\
  Regex.test Regex.email_pattern "@exemplo.com" = false.
Proof. repeat split. Qed.

(** An empty store: every statistic is 0. *)
Example scenario_empty_dashboard :
  stats [] = mkStats 0 0 0 0.
Proof. reflexivity. Qed.

(** * Further properties of the routes *)

(** ** Lookups after a mutation *)




Lemma replace_ids (saved : Task) (l : list Task) :
  map t_id (Api.replace saved l) = map t_id l.
Proof.
  unfold Api.replace. induction l as [|t l IH]; simpl; [reflexivity|].
  rewrite IH. destruct (String.eqb (t_id t) (t_id saved)) eqn:E;
    [apply String.eqb_eq in E; now rewrite E | reflexivity].
Qed.

Lemma replace_In (saved : Task) (l : list Task) (t : Task) :
  In t (Api.replace saved l) -> t = saved \/ In t l.
Proof.
  unfold Api.replace. intros H. apply in_map_iff in H.
  destruct H as [t' [H1 H2]].
  destruct (String.eqb (t_id t') (t_id saved));
    [left; now symmetry | right; now subst].
Qed.




Lemma deleteOne_gone (id : ObjectId) (l : list Task) :
  unique_ids l -> findById id (deleteOne id l) = None.
Proof.
  unfold unique_ids, findById.
  induction l as [|t l IH]; simpl; [reflexivity|].
  intros U. apply NoDup_cons_iff in U. destruct U as [U1 U2].
  destruct (String.eqb (t_id t) id) eqn:E.
  - apply String.eqb_eq in E. subst id.
    apply findById_None. exact U1.
  - simpl. rewrite E. now apply IH.
Qed.

Lemma deleteOne_other (id id' : ObjectId) (l : list Task) :
  id' <> id -> findById id' (deleteOne id l) = findById id' l.
Proof.
  intros N. unfold findById.
  induction l as [|t l IH]; simpl; [reflexivity|].
  destruct (String.eqb (t_id t) id) eqn:E.
  - apply String.eqb_eq in E.
    assert (X : String.eqb (t_id t) id' = false)
      by (apply String.eqb_neq; congruence).
    now rewrite X.
  - simpl. destruct (String.eqb (t_id t) id'); [reflexivity | exact IH].
Qed.

Lemma deleteOne_length (id : ObjectId) (l : list Task) (t : Task) :
  findById id l = Some t ->
  List.length l = S (List.length (deleteOne id l)).
Proof.
  unfold findById. induction l as [|x l IH]; simpl; [discriminate|].
  destruct (String.eqb (t_id x) id); [reflexivity|].
  intros H. simpl. now rewrite (IH H).
Qed.

Lemma deleteOne_In (id : ObjectId) (l : list Task) (t : Task) :
  In t (deleteOne id l) -> In t l.
Proof.
  induction l as [|x l IH]; simpl; [tauto|].
  destruct (String.eqb (t_id x) id); simpl; [tauto|].
  intros [H|H]; [now left | right; now apply IH].
Qed.


Lemma deleteOne_unique (id : ObjectId) (l : list Task) :
  unique_ids l -> unique_ids (deleteOne id l).
Proof.
  unfold unique_ids. induction l as [|x l IH]; simpl; [trivial|].
  intros U. apply NoDup_cons_iff in U. destruct U as [U1 U2].
  destruct (String.eqb (t_id x) id); [exact U2|].
  simpl. apply NoDup_cons; [|now apply IH].
  intros H. apply U1. apply in_map_iff in H. destruct H as [t [H1 H2]].
  apply in_map_iff. exists t. split; [exact H1|].
  now apply (deleteOne_In id).
Qed.

(** What a successful PUT leaves behind. *)
Lemma put_tarefas_success (s : Session) (id : ObjectId) (body : TaskBody)
    (now : Z) (db db' : Db) (saved : Task) :
  put_tarefas s id body now db = (Json 200 true (P_task saved), db') ->
  exists old,
    findById id (tasks db) = Some old /\
    saved = touch (object_assign old body) now /\
    valid_task saved /\
    db' = set_tasks db (Api.replace saved (tasks db)).
Proof.
  unfold put_tarefas, isAuthenticated.
  destruct (userIsLoggedIn s); [|discriminate].
  destruct (findById id (tasks db)) as [old|] eqn:F; [|discriminate].
  destruct (negb (userIsAdmin s) && negb (userIsOwner s old))%bool;
    [discriminate|].
  destruct (validate_task _ _ _) eqn:V; [|discriminate].
  intros H. injection H as <- <-.
  exists old. repeat split. exact V.
Qed.



(** X2. In a collection without duplicate ids, after a DELETE that answered
    200 the id is no longer found, every other id is looked up as before, the
    collection is one document shorter, and the same DELETE sent again is
    answered 404 and changes nothing. *)
Theorem delete_removes_exactly_one (s : Session) (id : ObjectId)
    (db db' : Db) (p : Payload) :
  unique_ids (tasks db) ->
  delete_tarefas s id db = (Json 200 true p, db') ->
  findById id (tasks db') = None /\
  (forall id', id' <> id ->
     findById id' (tasks db') = findById id' (tasks db)) /\
  List.length (tasks db) = S (List.length (tasks db')) /\
  users db' = users db /\
  delete_tarefas s id db'
    = (Json 404 false (P_message "Tarefa não encontrada."), db').
Proof.
  intros U. unfold delete_tarefas, isAuthenticated.
  destruct (userIsLoggedIn s) eqn:L; [|discriminate].
  destruct (findById id (tasks db)) as [old|] eqn:F; [|discriminate].
  destruct (negb (userIsAdmin s) && negb (userIsOwner s old))%bool;
    [discriminate|].
  intros H. injection H as _ <-. simpl.
  pose proof (deleteOne_gone id (tasks db) U) as G.
  split; [exact G|]. split.
  - intros id' N. now apply deleteOne_other.
  - split; [now apply (deleteOne_length id _ old)|].
    split; [reflexivity|]. now rewrite G.
Qed.

Lemma delete_removes_exactly_one_witness :
  findById id_task (tasks (snd (delete_tarefas session_B id_task db_AB))) = None.
Proof.
  refine (proj1 (delete_removes_exactly_one session_B id_task db_AB _ _ _
                   eq_refl)).
  unfold unique_ids. simpl.
  repeat constructor; simpl; intuition discriminate.
Defined.

Lemma unique_ids_snoc (l : list Task) (t : Task) :
  unique_ids l -> ~ In (t_id t) (map t_id l) -> unique_ids (l ++ [t]).
Proof.
  unfold unique_ids. induction l as [|x l IH]; simpl; intros U N.
  - constructor; [tauto | constructor].
  - apply NoDup_cons_iff in U. destruct U as [U1 U2].
    apply NoDup_cons.
    + rewrite map_app, in_app_iff. simpl. intros [H|[H|[]]]; [tauto|].
      apply N. left. now symmetry.
    + apply IH; [exact U2|]. intros H. apply N. now right.
Qed.

(** What a POST that answered 201 stored. *)
Lemma post_tarefas_success (s : Session) (body : TaskBody)
    (newid : ObjectId) (now : Z) (db db' : Db) (t : Task) :
  post_tarefas s body newid now db = (Json 201 true (P_task t), db') ->
  exists uid ti,
    userId s = Some uid /\
    option_map trim (b_titulo body) = Some ti /\
    t = mkTask newid ti (option_map trim (b_descricao body)) false
               (Some (match b_prioridade body with
                      | Some p => p
                      | None => "Média"
                      end))
               (b_category body) uid now now /\
    valid_task t /\
    db' = set_tasks db (tasks db ++ [t]).
Proof.
  unfold post_tarefas, isAuthenticated.
  destruct (userIsLoggedIn s); [|discriminate].
  destruct (userId s) as [uid|]; [|discriminate].
  destruct (option_map trim (b_titulo body)) as [ti|] eqn:T.
  2: { destruct (validate_task _ _ _); discriminate. }
  destruct (validate_task _ _ _) eqn:V; [|discriminate].
  intros H. injection H as <- <-.
  exists uid, ti. split; [reflexivity|]. split; [reflexivity|].
  split; [destruct (b_prioridade body); reflexivity|].
  split; [|reflexivity].
  unfold valid_task. simpl. exact V.
Qed.



(** X4. The task routes keep the collection well formed: if no two stored
    tasks share an id and every stored task passes the schema validators,
    the same holds after any PUT, any DELETE, and any POST whose generated
    id is new, whatever the request and its answer. *)
Theorem task_routes_keep_store_well_formed
    (s : Session) (id newid : ObjectId) (body : TaskBody) (now : Z) (db : Db) :
  unique_ids (tasks db) ->
  Forall valid_task (tasks db) ->
  (unique_ids (tasks (snd (put_tarefas s id body now db))) /\
   Forall valid_task (tasks (snd (put_tarefas s id body now db)))) /\
  (unique_ids (tasks (snd (delete_tarefas s id db))) /\
   Forall valid_task (tasks (snd (delete_tarefas s id db)))) /\
  (~ In newid (map t_id (tasks db)) ->
   unique_ids (tasks (snd (post_tarefas s body newid now db))) /\
   Forall valid_task (tasks (snd (post_tarefas s body newid now db)))).
Proof.
  intros U V. split; [|split].
  - destruct (put_tarefas s id body now db) as [r db'] eqn:E.
    assert (D : db' = db \/ exists saved, r = Json 200 true (P_task saved)).
    { revert E. unfold put_tarefas, isAuthenticated.
      destruct (userIsLoggedIn s); [|intros H; injection H; auto].
      destruct (findById id (tasks db)) as [old|];
        [|intros H; injection H; auto].
      destruct (negb (userIsAdmin s) && negb (userIsOwner s old))%bool;
        [intros H; injection H; auto|].
      destruct (validate_task _ _ _);
        intros H; injection H as <- <-; [right; eexists; reflexivity | auto]. }
    destruct D as [->|[saved ->]]; [now split|].
    destruct (put_tarefas_success _ _ _ _ _ _ _ E) as [old [F [_ [Vs ->]]]].
    simpl. split.
    + unfold unique_ids. now rewrite replace_ids.
    + apply Forall_forall. intros t Ht.
      destruct (replace_In _ _ _ Ht) as [->|Ht']; [exact Vs|].
      rewrite Forall_forall in V. now apply V.
  - unfold delete_tarefas, isAuthenticated.
    destruct (userIsLoggedIn s); [|now split].
    destruct (findById id (tasks db)) as [old|]; [|now split].
    destruct (negb (userIsAdmin s) && negb (userIsOwner s old))%bool;
      [now split|].
    simpl. split; [now apply deleteOne_unique|].
    apply Forall_forall. intros t Ht. rewrite Forall_forall in V.
    apply V. now apply (deleteOne_In id).
  - intros N.
    destruct (post_tarefas s body newid now db) as [r db'] eqn:E.
    assert (D : db' = db \/ exists t, r = Json 201 true (P_task t)).
    { revert E. unfold post_tarefas, isAuthenticated.
      destruct (userIsLoggedIn s); [|intros H; injection H; auto].
      destruct (userId s); [|intros H; injection H; auto].
      destruct (option_map trim (b_titulo body));
        destruct (validate_task _ _ _);
        intros H; injection H as <- <-; auto.
      right. eexists. reflexivity. }
    destruct D as [->|[t ->]]; [now split|].
    destruct (post_tarefas_success _ _ _ _ _ _ _ E)
      as [uid [ti [_ [_ [Et [Vt ->]]]]]].
    simpl. split.
    + apply unique_ids_snoc; [exact U|]. now rewrite Et.
    + apply Forall_app. split; [exact V | now constructor].
Qed.

Lemma db_AB_well_formed :
  unique_ids (tasks db_AB) /\ Forall valid_task (tasks db_AB).
Proof.
  split.
  - unfold unique_ids. simpl.
    repeat constructor; simpl; intuition discriminate.
  - repeat constructor.
Qed.

Lemma task_routes_keep_store_well_formed_witness :
  unique_ids (tasks (snd (put_tarefas session_B id_task body_done 2000 db_AB))) /\
  Forall valid_task
    (tasks (snd (put_tarefas session_B id_task body_done 2000 db_AB))).
Proof.
  exact (proj1 (task_routes_keep_store_well_formed session_B id_task id_fresh
                  body_done 2000 db_AB (proj1 db_AB_well_formed)
                  (proj2 db_AB_well_formed))).
Defined.





(** ** Bulk import *)

Lemma create_task_success
    (ti d p c : option string) (done : bool) (uid : option ObjectId)
    (newid : ObjectId) (now : Z) (t : Task) :
  create_task ti d p c done uid newid now = inr t ->
  uid = Some (user t) /\ t_id t = newid /\ createdAt t = now /\
  concluida t = done /\ category t = c /\ valid_task t.
Proof.
  unfold create_task.
  destruct (option_map trim ti) as [x|]; [|discriminate].
  destruct uid as [u|]; [|discriminate].
  rewrite app_nil_r.
  destruct (validate_task _ _ _) eqn:V; [|discriminate].
  intros H. injection H as <-. repeat split. exact V.
Qed.




(** ** The CSV export *)

Lemma append_assoc (a b c : string) : ((a ++ b) ++ c = a ++ (b ++ c))%string.
Proof. induction a as [|x a IH]; simpl; [reflexivity | now rewrite IH]. Qed.

Lemma append_length (a b : string) :
  String.length (a ++ b) = (String.length a + String.length b)%nat.
Proof. induction a as [|x a IH]; simpl; [reflexivity | now rewrite IH]. Qed.

Lemma append_inv_tail (a b r : string) :
  (a ++ r = b ++ r)%string -> a = b.
Proof.
  revert b. induction a as [|x a IH]; intros [|y b] H; simpl in H.
  - reflexivity.
  - exfalso. apply (f_equal String.length) in H. simpl in H.
    rewrite append_length in H. lia.
  - exfalso. apply (f_equal String.length) in H. simpl in H.
    rewrite append_length in H. lia.
  - injection H as -> H. f_equal. now apply IH.
Qed.

Lemma double_quotes_inj (a b : string) :
  double_quotes a = double_quotes b -> a = b.
Proof.
  revert b. induction a as [|x a IH]; intros [|y b]; simpl.
  - reflexivity.
  - destruct (Ascii.eqb y dquote); discriminate.
  - destruct (Ascii.eqb x dquote); discriminate.
  - destruct (Ascii.eqb_spec x dquote) as [Ex|Ex];
    destruct (Ascii.eqb_spec y dquote) as [Ey|Ey]; intros H.
    + injection H as H. subst. f_equal. now apply IH.
    + injection H as H _. congruence.
    + injection H as H _. congruence.
    + injection H as -> H. f_equal. now apply IH.
Qed.

(** X8. The text columns of the export lose nothing: two texts that give the
    same column are the same text, and only the empty text gives the empty
    column. *)
Theorem csv_text_injective (a b : string) :
  (csv_text a = csv_text b -> a = b) /\
  (csv_text a = EmptyString <-> a = EmptyString).
Proof.
  unfold csv_text. split.
  - destruct (String.eqb_spec a "") as [->|Na];
    destruct (String.eqb_spec b "") as [->|Nb]; try discriminate.
    + reflexivity.
    + intros H. injection H as H.
      apply append_inv_tail in H. now apply double_quotes_inj.
  - destruct (String.eqb_spec a "") as [->|Na].
    + tauto.
    + split; [discriminate | contradiction].
Qed.

Lemma separators_plain (s r : string) (inside : bool) :
  plain s = true ->
  separators inside (s ++ r) = separators inside r /\
  ends_inside inside (s ++ r) = ends_inside inside r.
Proof.
  induction s as [|c s IH]; simpl; [now split|].
  intros P. apply andb_prop in P. destruct P as [P Ps].
  apply andb_prop in P. destruct P as [Pq Psc].
  apply negb_true_iff in Pq, Psc. rewrite Pq, Psc.
  rewrite andb_false_r. now apply IH.
Qed.

Lemma separators_quoted_body (s r : string) :
  separators true (double_quotes s ++ r) = separators true r /\
  ends_inside true (double_quotes s ++ r) = ends_inside true r.
Proof.
  induction s as [|c s IH]; simpl; [now split|].
  destruct (Ascii.eqb c dquote) eqn:E; simpl.
  - change (Ascii.eqb dquote dquote) with true. simpl. exact IH.
  - rewrite E. simpl. exact IH.
Qed.

(** A text column adds no separator and leaves the reader outside quotes. *)
Lemma separators_csv_text (s r : string) :
  separators false (csv_text s ++ r) = separators false r /\
  ends_inside false (csv_text s ++ r) = ends_inside false r.
Proof.
  unfold csv_text. destruct (String.eqb s ""); [now split|].
  simpl. change (Ascii.eqb dquote dquote) with true. simpl.
  rewrite append_assoc.
  destruct (separators_quoted_body s (String dquote EmptyString ++ r))
    as [H1 H2].
  rewrite H1, H2. simpl.
  change (Ascii.eqb dquote dquote) with true. now split.
Qed.

Lemma separators_semicolon (r : string) :
  separators false (";" ++ r) = S (separators false r) /\
  ends_inside false (";" ++ r) = ends_inside false r.
Proof. split; reflexivity. Qed.

(** X9. When the id, the priority, the category and the date of a task hold
    neither a quote nor a semicolon, its record in the export reads as seven
    columns, whatever quotes and semicolons its title and description hold,
    and the reader is outside quotes at the end of the record. *)
Theorem csv_line_seven_columns (toISOString : Z -> string) (t : Task) :
  plain (t_id t) = true ->
  plain (or_empty (prioridade t)) = true ->
  plain (or_empty (category t)) = true ->
  plain (toISOString (createdAt t)) = true ->
  separators false (csv_line toISOString t) = 6%nat /\
  ends_inside false (csv_line toISOString t) = false.
Proof.
  intros Pid Pp Pc Pd. unfold csv_line.
  repeat first
    [ rewrite (proj1 (separators_plain (t_id t) _ false Pid)),
              (proj2 (separators_plain (t_id t) _ false Pid))
    | rewrite (proj1 (separators_plain (or_empty (prioridade t)) _ false Pp)),
              (proj2 (separators_plain (or_empty (prioridade t)) _ false Pp))
    | rewrite (proj1 (separators_plain (or_empty (category t)) _ false Pc)),
              (proj2 (separators_plain (or_empty (category t)) _ false Pc))
    | rewrite (proj1 (separators_plain (toISOString (createdAt t)) _ false Pd)),
              (proj2 (separators_plain (toISOString (createdAt t)) _ false Pd))
    | rewrite (proj1 (separators_csv_text _ _)), (proj2 (separators_csv_text _ _))
    | rewrite (proj1 (separators_semicolon _)), (proj2 (separators_semicolon _))
    | rewrite (proj1 (separators_plain (if concluida t then "Sim" else "Não")
                        _ false ltac:(destruct (concluida t); reflexivity))),
              (proj2 (separators_plain (if concluida t then "Sim" else "Não")
                        _ false ltac:(destruct (concluida t); reflexivity))) ].
  split; reflexivity.
Qed.

Lemma csv_line_seven_columns_witness :
  separators false (csv_line sample_date task_tricky) = 6%nat /\
  ends_inside false (csv_line sample_date task_tricky) = false.
Proof.
  apply (csv_line_seven_columns sample_date task_tricky); reflexivity.
Defined.

(** A category with a semicolon does add a column. *)
Example csv_line_unquoted_category :
  separators false
    (csv_line sample_date
       (mkTask id_task "t" None false None (Some "Casa;Jardim") id_A 1 1))
  = 7%nat.
Proof. reflexivity. Qed.

(** ** The report and the backup *)

Lemma option_string_eqb_spec (a b : option string) :
  reflect (a = b) (option_string_eqb a b).
Proof.
  destruct a as [x|], b as [y|]; simpl; try (constructor; congruence).
  destruct (String.eqb_spec x y); constructor; congruence.
Qed.

Lemma bump_sum (k : option string) (g : list (option string * Z)) :
  sum_counts (bump k g) = sum_counts g + 1.
Proof.
  induction g as [|[k' n] g IH]; simpl; [reflexivity|].
  destruct (option_string_eqb k' k); simpl; lia.
Qed.

Lemma bump_keys_In (k x : option string) (g : list (option string * Z)) :
  In x (map fst (bump k g)) <-> x = k \/ In x (map fst g).
Proof.
  induction g as [|[k' n] g IH]; simpl.
  - intuition congruence.
  - destruct (option_string_eqb_spec k' k) as [->|N]; simpl.
    + intuition congruence.
    + rewrite IH. intuition congruence.
Qed.

Lemma bump_keys_NoDup (k : option string) (g : list (option string * Z)) :
  NoDup (map fst g) -> NoDup (map fst (bump k g)).
Proof.
  induction g as [|[k' n] g IH]; simpl; intros U.
  - constructor; [tauto | constructor].
  - apply NoDup_cons_iff in U. destruct U as [U1 U2].
    destruct (option_string_eqb_spec k' k) as [->|N]; simpl.
    + now apply NoDup_cons.
    + apply NoDup_cons; [|now apply IH].
      rewrite bump_keys_In. intros [E|H]; [congruence | contradiction].
Qed.

Lemma bump_lookup (k x : option string) (g : list (option string * Z)) :
  group_lookup x (bump k g)
  = group_lookup x g + (if option_string_eqb k x then 1 else 0).
Proof.
  unfold group_lookup.
  induction g as [|[k' n] g IH]; simpl.
  - destruct (option_string_eqb k x); reflexivity.
  - destruct (option_string_eqb_spec k' k) as [->|N]; simpl.
    + destruct (option_string_eqb k x); simpl; lia.
    + destruct (option_string_eqb_spec k' x) as [->|N']; simpl.
      * destruct (option_string_eqb_spec k x) as [->|_]; [congruence | lia].
      * exact IH.
Qed.

Lemma bump_positive (k : option string) (g : list (option string * Z)) :
  Forall (fun p => 0 < snd p) g -> Forall (fun p => 0 < snd p) (bump k g).
Proof.
  induction 1 as [|[k' n] g H T IH]; simpl.
  - constructor; [simpl; lia | constructor].
  - simpl in H. destruct (option_string_eqb k' k); constructor;
      simpl; try lia; assumption.
Qed.

(** The groups built from [acc] by the documents of [l]. *)
Lemma group_fold (key : Task -> option string) (l : list Task) :
  forall acc,
    let g := fold_left (fun groups t => bump (key t) groups) l acc in
    sum_counts g = sum_counts acc + Z.of_nat (List.length l) /\
    (NoDup (map fst acc) -> NoDup (map fst g)) /\
    (Forall (fun p => 0 < snd p) acc -> Forall (fun p => 0 < snd p) g) /\
    (forall x, group_lookup x g
               = group_lookup x acc
                 + countDocuments (fun t => option_string_eqb (key t) x) l).
Proof.
  unfold countDocuments.
  induction l as [|t l IH]; intros acc; cbn [fold_left filter List.length].
  - repeat split; intros; try assumption; lia.
  - destruct (IH (bump (key t) acc)) as [H1 [H2 [H3 H4]]]. cbv zeta in *.
    split; [rewrite H1, bump_sum; lia|].
    split; [intros U; now apply H2, bump_keys_NoDup|].
    split; [intros P; now apply H3, bump_positive|].
    intros x. rewrite H4, bump_lookup.
    destruct (option_string_eqb (key t) x); cbn [List.length]; lia.
Qed.

Lemma group_lookup_In (k : option string) (n : Z)
    (g : list (option string * Z)) :
  NoDup (map fst g) -> Forall (fun p => 0 < snd p) g ->
  (In (k, n) g <-> group_lookup k g = n /\ 0 < n).
Proof.
  unfold group_lookup.
  induction g as [|[k' m] g IH]; simpl; intros U P.
  - split; [tauto | lia].
  - apply NoDup_cons_iff in U. destruct U as [U1 U2].
    apply Forall_cons_iff in P. destruct P as [P1 P2]. simpl in P1.
    destruct (option_string_eqb_spec k' k) as [->|N]; simpl.
    + split.
      * intros [E|H]; [injection E as <-; now split|].
        exfalso. apply U1. apply in_map_iff. exists (k, n). now split.
      * intros [<- _]. now left.
    + rewrite <- (IH U2 P2). split.
      * intros [E|H]; [congruence | exact H].
      * intros H. now right.
Qed.

Lemma count_by_status (l : list Task) :
  countDocuments (fun t => concluida t) l
  + countDocuments (fun t => negb (concluida t)) l
  = countDocuments (fun _ => true) l.
Proof.
  unfold countDocuments.
  assert (N : (List.length (filter (fun t => concluida t) l)
               + List.length (filter (fun t => negb (concluida t)) l)
               = List.length (filter (fun _ : Task => true) l))%nat).
  { induction l as [|t l IH]; [reflexivity|].
    cbn [filter]. destruct (concluida t); cbn [negb List.length]; lia. }
  lia.
Qed.

(** X10. In the report the completed and the pending tasks add up to the
    total, and so do the counts of the grouping by priority and of the
    grouping by category.  A grouping has one group per key, and a key has a
    group with count [n] exactly when [n] tasks carry that key and [n] is
    not 0. *)
Theorem relatorio_counts_add_up (l : list Task) :
  let r := relatorio l in
  total_tarefas r = Z.of_nat (List.length l) /\
  status_concluidas r + status_pendentes r = total_tarefas r /\
  sum_counts (tarefas_por_prioridade r) = total_tarefas r /\
  sum_counts (tarefas_por_categoria r) = total_tarefas r /\
  NoDup (map fst (tarefas_por_prioridade r)) /\
  NoDup (map fst (tarefas_por_categoria r)) /\
  (forall k n,
     In (k, n) (tarefas_por_prioridade r)
     <-> n = countDocuments
               (fun t => option_string_eqb (prioridade t) k) l /\ 0 < n) /\
  (forall k n,
     In (k, n) (tarefas_por_categoria r)
     <-> n = countDocuments
               (fun t => option_string_eqb (category t) k) l /\ 0 < n).
Proof.
  cbv zeta. unfold relatorio. cbn [total_tarefas status_concluidas
    status_pendentes tarefas_por_prioridade tarefas_por_categoria].
  assert (T : countDocuments (fun _ => true) l = Z.of_nat (List.length l)).
  { unfold countDocuments. f_equal. f_equal.
    induction l as [|t l IH]; simpl; [reflexivity | now rewrite IH]. }
  destruct (group_fold prioridade l []) as [P1 [P2 [P3 P4]]].
  destruct (group_fold category l []) as [C1 [C2 [C3 C4]]].
  cbv zeta in *. fold (group_count prioridade l) in *.
  fold (group_count category l) in *. simpl in P1, C1.
  split; [exact T|]. split; [apply count_by_status|].
  split; [rewrite T; exact P1|]. split; [rewrite T; exact C1|].
  split; [apply P2; constructor|]. split; [apply C2; constructor|].
  split; intros k n.
  - rewrite (group_lookup_In k n _ (P2 (NoDup_nil _)) (P3 (Forall_nil _))).
    rewrite P4. unfold group_lookup at 1. simpl.
    split; intros [A B]; split; try assumption; lia.
  - rewrite (group_lookup_In k n _ (C2 (NoDup_nil _)) (C3 (Forall_nil _))).
    rewrite C4. unfold group_lookup at 1. simpl.
    split; intros [A B]; split; try assumption; lia.
Qed.







(** ** More on listings *)

Lemma StronglySorted_map {A B} (R : B -> B -> Prop) (f : A -> B) (l : list A) :
  StronglySorted (fun x y => R (f x) (f y)) l -> StronglySorted R (map f l).
Proof.
  induction 1 as [|x l H IH F]; simpl; constructor; [exact IH|].
  apply Forall_map. exact F.
Qed.

Lemma StronglySorted_split {A} (R : A -> A -> Prop) (l1 l2 : list A) :
  StronglySorted R (l1 ++ l2) ->
  forall a b, In a l1 -> In b l2 -> R a b.
Proof.
  induction l1 as [|x l1 IH]; simpl; intros S a b Ha Hb; [destruct Ha|].
  inversion S as [|? ? S' F]; subst.
  destruct Ha as [<-|Ha].
  - rewrite Forall_forall in F. apply F. apply in_or_app. now right.
  - now apply (IH S').
Qed.

Lemma StronglySorted_weaken {A} (R R' : A -> A -> Prop) (l : list A) :
  (forall a b, R a b -> R' a b) -> StronglySorted R l -> StronglySorted R' l.
Proof.
  intros W. induction 1 as [|x l H IH F]; constructor; [exact IH|].
  eapply Forall_impl; [|exact F]. intros b. apply W.
Qed.

Lemma StronglySorted_prefix {A} (R : A -> A -> Prop) (l1 l2 : list A) :
  StronglySorted R (l1 ++ l2) -> StronglySorted R l1.
Proof.
  induction l1 as [|x l1 IH]; simpl; intros S; [constructor|].
  inversion S as [|? ? S' F]; subst. constructor; [now apply IH|].
  apply Forall_app in F. tauto.
Qed.

Lemma sorted_tasks (spec : SortSpec) (l : list Task) :
  Permutation (map d_task (sort_stage spec (map of_task l))) l.
Proof.
  apply perm_trans with (map d_task (map of_task l)).
  - apply Permutation_map, sort_stage_perm.
  - rewrite map_map. simpl. rewrite map_id. apply Permutation_refl.
Qed.

Lemma by_date_leb (a b : Doc) :
  doc_leb [(F_createdAt, -1)] a b = true ->
  createdAt (d_task b) <= createdAt (d_task a).
Proof.
  unfold doc_leb. simpl.
  destruct (Z.compare_spec (createdAt (d_task a)) (createdAt (d_task b)));
    simpl; try discriminate; intros _; lia.
Qed.

Lemma by_date_sorted (l : list Task) :
  StronglySorted (fun a b => createdAt b <= createdAt a)
    (map d_task (sort_stage [(F_createdAt, -1)] (map of_task l))).
Proof.
  apply StronglySorted_map.
  eapply StronglySorted_weaken; [|apply sort_stage_sorted].
  intros a b. apply by_date_leb.
Qed.

(** X12. The [n] most recent tasks (the last ten of the report, the last
    five of the dashboard): the list holds [n] tasks, or all of them when
    there are fewer; it is ordered from the most recent on; and together
    with the tasks it leaves out it makes up the collection, none of the
    tasks left out being more recent than a listed one. *)
Theorem most_recent_are_the_latest (n : nat) (l : list Task) :
  List.length (most_recent n l) = Nat.min n (List.length l) /\
  (forall i j a b, (i < j)%nat ->
     nth_error (most_recent n l) i = Some a ->
     nth_error (most_recent n l) j = Some b ->
     createdAt b <= createdAt a) /\
  (exists rest,
     Permutation l (most_recent n l ++ rest) /\
     forall a b, In a (most_recent n l) -> In b rest ->
                 createdAt b <= createdAt a) /\
  ultimas_10_criadas (relatorio l) = most_recent 10 l /\
  latest l = most_recent 5 l.
Proof.
  unfold most_recent.
  set (sorted := map d_task (sort_stage [(F_createdAt, -1)] (map of_task l))).
  pose proof (by_date_sorted l) as S. fold sorted in S.
  pose proof (sorted_tasks [(F_createdAt, -1)] l) as P. fold sorted in P.
  split.
  - rewrite length_firstn. now rewrite (Permutation_length P).
  - split.
    + intros i j a b Hij Ha Hb.
      rewrite <- (firstn_skipn n sorted) in S.
      apply StronglySorted_prefix in S.
      exact (StronglySorted_nth_error _ _ S i j a b Hij Ha Hb).
    + split; [|split; reflexivity].
      exists (skipn n sorted). split.
      * rewrite firstn_skipn. now apply Permutation_sym.
      * rewrite <- (firstn_skipn n sorted) in S.
        now apply StronglySorted_split.
Qed.

Lemma by_status_date_leb (a b : Doc) :
  doc_leb [(F_concluida, 1); (F_createdAt, -1)] a b = true ->
  (concluida (d_task a) = true -> concluida (d_task b) = true) /\
  (concluida (d_task a) = concluida (d_task b) ->
     createdAt (d_task b) <= createdAt (d_task a)).
Proof.
  unfold doc_leb. simpl.
  destruct (concluida (d_task a)), (concluida (d_task b)); simpl;
    try discriminate;
    destruct (Z.compare_spec (createdAt (d_task a)) (createdAt (d_task b)));
    simpl; try discriminate; intros _; split; intros; try congruence; lia.
Qed.

(** X13. GET /api/tarefas and the home page list every stored task once,
    for any caller, the open tasks before the completed ones and, among
    tasks of the same status, the more recent first; the priority plays no
    part in this order. *)
Theorem api_listing_order (s : Session) (db : Db) :
  listed (fst (get_api_tarefas s db)) = home_tasks db /\
  snd (get_api_tarefas s db) = db /\
  Permutation (home_tasks db) (tasks db) /\
  (forall i j a b, (i < j)%nat ->
     nth_error (home_tasks db) i = Some a ->
     nth_error (home_tasks db) j = Some b ->
     (concluida a = true -> concluida b = true) /\
     (concluida a = concluida b -> createdAt b <= createdAt a)).
Proof.
  split; [reflexivity|]. split; [reflexivity|].
  split; [apply sorted_tasks|].
  intros i j a b Hij Ha Hb.
  assert (S : StronglySorted
                (fun a b => (concluida a = true -> concluida b = true) /\
                            (concluida a = concluida b ->
                             createdAt b <= createdAt a))
                (home_tasks db)).
  { unfold home_tasks. apply StronglySorted_map.
    eapply StronglySorted_weaken; [|apply sort_stage_sorted].
    intros x y. apply by_status_date_leb. }
  exact (StronglySorted_nth_error _ _ S i j a b Hij Ha Hb).
Qed.

Lemma rank_In (docs : list Doc) (d : Doc) :
  In d (rank docs) <->
  exists d0, In d0 docs /\
             d = mkDoc (d_task d0) (d_userDetails d0)
                       (priority_switch (prioridade (d_task d0))).
Proof.
  unfold rank. split.
  - intros H. apply (Permutation_in _ (sort_stage_perm _ _)) in H.
    unfold add_priorityOrder in H. apply in_map_iff in H.
    destruct H as [d0 [E H]]. exists d0. now split.
  - intros [d0 [H ->]].
    apply (Permutation_in _ (Permutation_sym (sort_stage_perm _ _))).
    unfold add_priorityOrder. apply in_map_iff. exists d0. now split.
Qed.

(** What the join makes of the documents it is given. *)
Lemma lookup_unwind_In (preserve : bool) (us : list User) (docs : list Doc)
    (d : Doc) :
  In d (lookup_unwind preserve us docs) <->
  exists d0, In d0 docs /\
    ((exists u, In u us /\ u_id u = user (d_task d0) /\
                d = mkDoc (d_task d0) (Some u) (d_priorityOrder d0))
     \/ (preserve = true /\ d = d0 /\
         forall u, In u us -> u_id u <> user (d_task d0))).
Proof.
  unfold lookup_unwind. rewrite in_flat_map. split.
  - intros [d0 [H0 H]]. exists d0. split; [exact H0|].
    destruct (filter (fun u => String.eqb (u_id u) (user (d_task d0))) us)
      as [|u1 rest] eqn:F.
    + right. destruct preserve; [|destruct H].
      destruct H as [E0|[]]. subst d. repeat split.
      intros u Hu E.
      assert (X : In u (filter (fun u => String.eqb (u_id u)
                                            (user (d_task d0)))  us)).
      { apply filter_In. split; [exact Hu | now apply String.eqb_eq]. }
      rewrite F in X. destruct X.
    + left. apply in_map_iff in H. destruct H as [u [<- Hu]].
      rewrite <- F in Hu. apply filter_In in Hu. destruct Hu as [Hu E].
      apply String.eqb_eq in E. exists u. repeat split; assumption.
  - intros [d0 [H0 [[u [Hu [E ->]]]|[-> [-> N]]]]]; exists d0;
      (split; [exact H0|]).
    + assert (X : In u (filter (fun u => String.eqb (u_id u)
                                            (user (d_task d0))) us)).
      { apply filter_In. split; [exact Hu | now apply String.eqb_eq]. }
      destruct (filter _ us) as [|u1 rest]; [destruct X|].
      apply in_map_iff. exists u. now split.
    + destruct (filter (fun u => String.eqb (u_id u) (user (d_task d0))) us)
        as [|u1 rest] eqn:F; [now left|].
      exfalso. apply (N u1).
      * assert (X : In u1 (u1 :: rest)) by now left.
        rewrite <- F in X. apply filter_In in X. tauto.
      * assert (X : In u1 (u1 :: rest)) by now left.
        rewrite <- F in X. apply filter_In in X.
        now apply String.eqb_eq.
Qed.

Lemma filter_unique_id (us : list User) (x : ObjectId) :
  NoDup (map u_id us) ->
  (List.length (filter (fun u => String.eqb (u_id u) x) us) <= 1)%nat.
Proof.
  induction us as [|u us IH]; simpl; intros U; [lia|].
  apply NoDup_cons_iff in U. destruct U as [U1 U2].
  destruct (String.eqb_spec (u_id u) x) as [E|E]; [|now apply IH].
  simpl. assert (X : filter (fun u => String.eqb (u_id u) x) us = []).
  { destruct (filter _ us) as [|v rest] eqn:F; [reflexivity|].
    exfalso. apply U1.
    assert (Y : In v (v :: rest)) by now left.
    rewrite <- F in Y. apply filter_In in Y. destruct Y as [Y1 Y2].
    apply String.eqb_eq in Y2. apply in_map_iff. exists v. split; congruence. }
  rewrite X. simpl. lia.
Qed.

Lemma lookup_unwind_once (us : list User) (docs : list Doc) :
  NoDup (map u_id us) ->
  map d_task (lookup_unwind true us docs) = map d_task docs.
Proof.
  intros U. unfold lookup_unwind.
  induction docs as [|d docs IH]; [reflexivity|].
  cbn [flat_map]. rewrite map_app, IH. cbn [map]. f_equal.
  pose proof (filter_unique_id us (user (d_task d)) U) as L.
  destruct (filter _ us) as [|u [|v rest]]; simpl in *; [reflexivity..|lia].
Qed.

(** X14. The join with the users: every document of a category page carries
    the account whose id is the task's owner, or none when no account has
    that id; the team listing carries an account in every document and
    lists exactly the stored tasks whose owner has an account.  When no two
    accounts share an id, a category page shows each stored task of its
    category once. *)
Theorem listings_join_owner (db : Db) :
  (forall c d, In d (category_pipeline c db) ->
     match d_userDetails d with
     | Some u => In u (users db) /\ u_id u = user (d_task d)
     | None => forall u, In u (users db) -> u_id u <> user (d_task d)
     end) /\
  (forall d, In d (team_pipeline db) ->
     exists u, d_userDetails d = Some u /\ In u (users db) /\
               u_id u = user (d_task d)) /\
  (forall t, In t (map d_task (team_pipeline db))
             <-> In t (tasks db) /\
                 exists u, In u (users db) /\ u_id u = user t) /\
  (NoDup (map u_id (users db)) ->
   forall c, Permutation
               (map d_task (category_pipeline c db))
               (filter (fun t => option_string_eqb (category t) (Some c))
                       (tasks db))).
Proof.
  split; [|split; [|split]].
  - intros c d H. unfold category_pipeline in H.
    apply rank_In in H. destruct H as [d0 [H ->]]. simpl.
    apply lookup_unwind_In in H.
    destruct H as [d1 [H1 [[u [Hu [E ->]]]|[_ [-> N]]]]]; simpl.
    + now split.
    + unfold match_category in H1. apply filter_In in H1.
      destruct H1 as [H1 _]. apply in_map_iff in H1.
      destruct H1 as [t [<- _]]. simpl. exact N.
  - intros d H. unfold team_pipeline in H.
    apply rank_In in H. destruct H as [d0 [H ->]]. simpl.
    apply lookup_unwind_In in H.
    destruct H as [d1 [H1 [[u [Hu [E ->]]]|[X _]]]]; [|discriminate].
    exists u. simpl. repeat split; assumption.
  - intros t. unfold team_pipeline. rewrite listed_rank, in_map_iff. split.
    + intros [d [<- H]]. apply lookup_unwind_In in H.
      destruct H as [d1 [H1 [[u [Hu [E ->]]]|[X _]]]]; [|discriminate].
      simpl. apply in_map_iff in H1. destruct H1 as [t [<- Ht]]. simpl in *.
      split; [exact Ht | exists u; now split].
    + intros [Ht [u [Hu E]]].
      exists (mkDoc t (Some u) 0). split; [reflexivity|].
      apply lookup_unwind_In. exists (of_task t).
      split; [now apply in_map|]. left. exists u. repeat split; assumption.
  - intros U c. unfold category_pipeline.
    apply perm_trans with
      (map d_task (lookup_unwind true (users db)
                     (match_category c (map of_task (tasks db)))));
      [apply rank_perm|].
    rewrite (lookup_unwind_once _ _ U). unfold match_category.
    induction (tasks db) as [|t l IH]; simpl; [constructor|].
    destruct (category t) as [c'|]; simpl.
    + destruct (String.eqb c' c); simpl; [now apply perm_skip | exact IH].
    + exact IH.
Qed.



(** ** The percentage of the dashboard *)

Section Percentage.
Local Open Scope Q_scope.

Lemma ilog2_unique (x : Q) (L : Z) :
  0 < x -> 2 ^ L <= x -> x < 2 ^ (L + 1) -> ilog2 x = L.
Proof.
  intros Hx H1 H2. destruct (ilog2_spec x Hx) as [S1 S2].
  destruct (Z.lt_trichotomy (ilog2 x) L) as [C|[C|C]]; [|exact C|].
  - exfalso. assert (M : 2 ^ (ilog2 x + 1) <= 2 ^ L) by (apply pow2_le; lia).
    lra.
  - exfalso. assert (M : 2 ^ (L + 1) <= 2 ^ ilog2 x) by (apply pow2_le; lia).
    lra.
Qed.

Lemma ilog2_comp (x y : Q) : 0 < x -> x == y -> ilog2 x = ilog2 y.
Proof.
  intros Hx E. assert (Hy : 0 < y) by (rewrite <- E; exact Hx).
  destruct (ilog2_spec y Hy) as [S1 S2].
  apply ilog2_unique; [exact Hx | rewrite E; exact S1 | rewrite E; exact S2].
Qed.

Lemma round_ties_even_comp (s s' : Q) :
  s == s' -> round_ties_even s = round_ties_even s'.
Proof.
  intros E. unfold round_ties_even.
  rewrite (Qfloor_comp _ _ E).
  assert (C : Qcompare (s - inject_Z (Qfloor s')) (1 # 2)
              = Qcompare (s' - inject_Z (Qfloor s')) (1 # 2)).
  { apply Qcompare_comp; [now rewrite E | reflexivity]. }
  now rewrite C.
Qed.

Lemma fl_pos_comp (x y : Q) : 0 < x -> x == y -> fl_pos x == fl_pos y.
Proof.
  intros Hx E. unfold fl_pos. rewrite <- (ilog2_comp x y Hx E).
  rewrite (round_ties_even_comp (x * 2 ^ (- (ilog2 x - 52)))
                                (y * 2 ^ (- (ilog2 x - 52)))).
  - reflexivity.
  - apply Qmult_comp; [exact E | reflexivity].
Qed.

(** Rounding depends on the value only, not on the fraction that writes it. *)
Lemma fl_comp (x y : Q) : 0 <= x -> x == y -> fl x == fl y.
Proof.
  intros Hx E. destruct (nonneg_cases x Hx) as [[Z0 X0]|P].
  - rewrite (fl_zero x Z0).
    assert (Y0 : Qnum y = 0%Z).
    { rewrite X0 in E. unfold Qeq in E. simpl in E. lia. }
    rewrite (fl_zero y Y0). reflexivity.
  - assert (Py : 0 < y) by (rewrite <- E; exact P).
    rewrite (fl_of_positive x P), (fl_of_positive y Py).
    now apply fl_pos_comp.
Qed.

Lemma ratio_percent_none (t : Z) : ratio_percent 0 t = 0%Z.
Proof.
  unfold ratio_percent, js_mul, js_div.
  assert (A : fl (inject_Z 0 / inject_Z t) = 0).
  { apply fl_zero. simpl. reflexivity. }
  rewrite A. reflexivity.
Qed.

Lemma ratio_percent_all (t : Z) : (0 < t)%Z -> ratio_percent t t = 100%Z.
Proof.
  intros Ht. unfold ratio_percent, js_mul, js_div, Math_round.
  assert (Tq : 0 < inject_Z t) by (rewrite Zlt_Qlt in Ht; exact Ht).
  assert (E : inject_Z t / inject_Z t == 1).
  { field. intros C. rewrite C in Tq. discriminate Tq. }
  assert (A : fl (inject_Z t / inject_Z t) == 1).
  { rewrite (fl_comp _ 1); [apply fl_1 | lra | exact E]. }
  assert (B : fl (fl (inject_Z t / inject_Z t) * inject_Z 100) == inject_Z 100).
  { rewrite (fl_comp _ (inject_Z 100)).
    - apply fl_100.
    - rewrite A. discriminate.
    - rewrite A. ring. }
  rewrite (Qfloor_comp _ (inject_Z 100 + (1 # 2))); [reflexivity|].
  now rewrite B.
Qed.

Lemma ratio_percent_mono (c c' t : Z) :
  (0 <= c <= c')%Z -> (0 < t)%Z ->
  (ratio_percent c t <= ratio_percent c' t)%Z.
Proof.
  intros [H0 H1] Ht. unfold ratio_percent, js_mul, js_div, Math_round.
  assert (Tq : 0 < inject_Z t) by (rewrite Zlt_Qlt in Ht; exact Ht).
  rewrite Zle_Qle in H0, H1. change (inject_Z 0) with 0 in H0.
  assert (X0 : 0 <= inject_Z c / inject_Z t).
  { apply Qle_shift_div_l; [exact Tq | lra]. }
  assert (X1 : inject_Z c / inject_Z t <= inject_Z c' / inject_Z t).
  { apply Qle_shift_div_l; [exact Tq|].
    setoid_replace (inject_Z c / inject_Z t * inject_Z t) with (inject_Z c);
      [exact H1|].
    field. intros C. rewrite C in Tq. discriminate Tq. }
  pose proof (fl_nonneg _ X0) as F0.
  pose proof (fl_mono _ _ X0 X1) as F1.
  change (inject_Z 100) with 100.
  apply Qfloor_resp_le.
  assert (G : fl (fl (inject_Z c / inject_Z t) * 100)
              <= fl (fl (inject_Z c' / inject_Z t) * 100)).
  { apply fl_mono; lra. }
  lra.
Qed.

End Percentage.

Lemma count_none (l : list Task) :
  (forall t, In t l -> concluida t = false) ->
  filter (fun t => concluida t) l = [].
Proof.
  induction l as [|t l IH]; simpl; intros H; [reflexivity|].
  rewrite (H t (or_introl eq_refl)). apply IH. intros x Hx. apply H. now right.
Qed.

Lemma count_all (l : list Task) :
  (forall t, In t l -> concluida t = true) ->
  filter (fun t => concluida t) l = l.
Proof.
  induction l as [|t l IH]; simpl; intros H; [reflexivity|].
  rewrite (H t (or_introl eq_refl)). f_equal. apply IH.
  intros x Hx. apply H. now right.
Qed.

(** X16. The percentage of the dashboard is 0 when no task is completed and
    100 when the collection is not empty and every task is completed; of two
    collections of the same size, the one with at least as many completed
    tasks shows at least the percentage of the other. *)
Theorem percentual_extremes_and_order (l l' : list Task) :
  ((forall t, In t l -> concluida t = false) -> percentual (stats l) = 0) /\
  (l <> [] -> (forall t, In t l -> concluida t = true) ->
     percentual (stats l) = 100) /\
  (List.length l = List.length l' ->
   concluidas (stats l) <= concluidas (stats l') ->
   percentual (stats l) <= percentual (stats l')).
Proof.
  unfold stats. cbn [percentual concluidas]. split; [|split].
  - intros H. rewrite (count_none l H). simpl.
    destruct (0 <? Z.of_nat (List.length l)); [apply ratio_percent_none|].
    reflexivity.
  - intros N H. rewrite (count_all l H).
    assert (P : 0 < Z.of_nat (List.length l)).
    { destruct l; [contradiction | simpl; lia]. }
    rewrite (proj2 (Z.ltb_lt _ _) P). now apply ratio_percent_all.
  - intros E C. rewrite <- E.
    destruct (Z.ltb_spec 0 (Z.of_nat (List.length l))) as [P|P]; [|lia].
    apply ratio_percent_mono; [|exact P]. split; [lia | exact C].
Qed.

Lemma percentual_extremes_and_order_witness :
  percentual (stats [task_done]) = 100 /\
  percentual (stats [task_low; task_of_B])
    <= percentual (stats [task_done; task_low]).
Proof.
  destruct (percentual_extremes_and_order [task_done] [task_done])
    as [_ [A _]].
  destruct (percentual_extremes_and_order [task_low; task_of_B]
              [task_done; task_low]) as [_ [_ B]].
  split.
  - apply A; [discriminate|]. intros t [<-|[]]. reflexivity.
  - apply B; [reflexivity|]. vm_compute. discriminate.
Defined.

(** ** Accounts *)











(** What a registration that succeeded stored. *)
Lemma post_cadastro_success
    (bcrypt_hash : string -> string) (runSettersOnQuery : bool)
    (s : Session) (b : CadastroBody) (id : ObjectId) (now : Z) (db db1 : Db) :
  post_cadastro bcrypt_hash runSettersOnQuery s b id now db
    = (Redirect "/login?status=success", db1) ->
  validate_user (new_user b id now) = [] /\
  existsb (fun u' => String.eqb (email u') (normalize_email (c_email b)))
          (users db) = false /\
  db1 = set_users db
          (users db ++ [mkUser id (trim (c_nome b)) (trim (c_telefone b))
                               (normalize_email (c_email b))
                               (bcrypt_hash (c_password b)) "user" now]).
Proof.
  unfold post_cadastro.
  destruct (findOne_email _ _ _); [discriminate|].
  unfold save_user.
  destruct (validate_user _) eqn:V; [|discriminate].
  simpl. destruct (existsb _ _) eqn:X; [discriminate|].
  intros H. injection H as <-. repeat split.
Qed.



Lemma find_app_last {A} (f : A -> bool) (l : list A) (x : A) :
  existsb f l = false -> f x = true -> find f (l ++ [x]) = Some x.
Proof.
  induction l as [|y l IH]; simpl; intros E F.
  - now rewrite F.
  - apply orb_false_elim in E. destruct E as [E1 E2].
    rewrite E1. now apply IH.
Qed.

(** X18. Registration followed by login: when the hash accepts the password
    it was made from, and either Mongoose normalises the address of a query
    or the posted address is already in normal form, a login with the
    address and password of a registration that has just succeeded is
    answered with the redirect to the task page, and the session then holds
    the id, the role "user" and the name of the new account. *)
Theorem register_then_login
    (bcrypt_hash : string -> string)
    (bcrypt_compare : string -> string -> bool) (runSettersOnQuery : bool)
    (s s' : Session) (b : CadastroBody) (id : ObjectId) (now : Z)
    (db db1 : Db) :
  (forall p, bcrypt_compare p (bcrypt_hash p) = true) ->
  runSettersOnQuery = true \/ normalize_email (c_email b) = c_email b ->
  post_cadastro bcrypt_hash runSettersOnQuery s b id now db
    = (Redirect "/login?status=success", db1) ->
  post_login bcrypt_compare runSettersOnQuery s' (c_email b) (c_password b) db1
    = (Redirect "/tarefas",
       mkSession (Some id) (Some "user") (Some (trim (c_nome b)))).
Proof.
  intros Hh Hq H.
  destruct (post_cadastro_success _ _ _ _ _ _ _ _ H) as [_ [X ->]].
  unfold post_login, findOne_email. simpl.
  assert (Q : (if runSettersOnQuery then normalize_email (c_email b)
               else c_email b) = normalize_email (c_email b)).
  { destruct Hq as [S|N]; [now rewrite S|].
    destruct runSettersOnQuery; [reflexivity | now symmetry]. }
  rewrite Q.
  rewrite (find_app_last _ _ _ X); [|simpl; apply String.eqb_refl].
  unfold matchPassword. simpl. now rewrite Hh.
Qed.

Lemma register_then_login_witness :
  post_login sample_compare false session_B "ana@exemplo.com" "segredo1" db_ana
    = (Redirect "/tarefas", mkSession (Some id_A) (Some "user") (Some "Ana")).
Proof.
  apply (register_then_login sample_hash sample_compare false anonymous
           session_B cadastro_ana id_A 100 empty_db db_ana).
  - intros p. unfold sample_compare. apply String.eqb_refl.
  - right. reflexivity.
  - reflexivity.
Defined.

(** ** The address pattern *)

Section Matching.
Local Open Scope string_scope.
Import Regex.












End Matching.

(** ** The first version of the API *)

(** X20. The first version of the create route takes the owner from the
    body: a request is answered 201 and appends one valid task owned by the
    body's [user] and with the body's completion flag (not completed when the
    body has none), or it is answered 400 with the validation error and stores
    nothing; a body without [user] is always refused. *)
Theorem v1_create_trusts_body (body : TaskBody) (newid : ObjectId) (now : Z)
    (db : Db) :
  ((exists t,
      post_tarefas_v1 body newid now db
        = (mkV1Reply 201 true None (Some t) None,
           set_tasks db (tasks db ++ [t])) /\
      b_user body = Some (user t) /\
      t_id t = newid /\
      concluida t = match b_concluida body with Some b => b | None => false end /\
      valid_task t)
   \/ (exists e,
         post_tarefas_v1 body newid now db
           = (mkV1Reply 400 false
                (Some "Dados inválidos. Verifique os campos enviados.")
                None (Some e), db))) /\
  (b_user body = None ->
   v1_status (fst (post_tarefas_v1 body newid now db)) = 400 /\
   snd (post_tarefas_v1 body newid now db) = db).
Proof.
  unfold post_tarefas_v1. split.
  - destruct (create_task _ _ _ _ _ _ _ _) as [e|t] eqn:C.
    + right. now exists e.
    + left. exists t. split; [reflexivity|].
      destruct (create_task_success _ _ _ _ _ _ _ _ _ C)
        as [A [B [_ [D [_ V]]]]].
      repeat split; assumption.
  - intros N. rewrite N. unfold create_task.
    destruct (option_map trim (b_titulo body)); split; reflexivity.
Qed.


